(** * whatsapp_webhook: the dashboard view-model, the composer, the
      configuration module and the request-forwarding handler

    A shallow embedding of

    - [frontend/src/App.jsx]: the [App] component (conversation list,
      message thread, realtime callbacks) and [ChatComposer.send];
    - [supabaseClient.js]: the configuration module;
    - [api/index.js]: the handler that pipes a request into a child process.

    React state is an explicit record, every callback is a function from
    the state and an event to the next state and the effects it issues
    (queries, subscriptions, console output).  The hosted backend, the
    realtime transport, [fetch] and the child process are the environment:
    they show up as events and as oracle arguments. *)

From stdpp Require Import gmap strings list sorting pretty.
From Stdlib Require Import ZArith Ascii String.

Local Open Scope string_scope.
Local Open Scope Z_scope.
Local Open Scope list_scope.
Set Warnings "-register-all".

(** ** JavaScript values the code relies on *)

Module JS.

(** A string is a sequence of code units; this development covers the
    strings whose code units are below 256, one [ascii] per code unit. *)

(** [!s] for a string: only the empty string is falsy. *)
Definition truthy_string (s : string) : bool :=
  match s with
  | EmptyString => false
  | String _ _ => true
  end.

(** [!v] for a value that is [null] or a string. *)
Definition truthy (v : option string) : bool :=
  match v with
  | None => false
  | Some s => truthy_string s
  end.

(** [data || []] *)
Definition or_empty {A : Type} (data : option (list A)) : list A :=
  match data with
  | Some l => l
  | None => []
  end.

(** White space and line terminators of [String.prototype.trim], among
    the code units below 256: TAB, LF, VT, FF, CR, SP, NBSP. *)
Definition is_white_space (c : ascii) : bool :=
  let n := nat_of_ascii c in
  (Nat.eqb n 9 || Nat.eqb n 10 || Nat.eqb n 11 || Nat.eqb n 12
   || Nat.eqb n 13 || Nat.eqb n 32 || Nat.eqb n 160)%bool.

Fixpoint trim_start (s : string) : string :=
  match s with
  | EmptyString => EmptyString
  | String c r => if is_white_space c then trim_start r else s
  end.

(** Drops the white space at the end: a white-space character is kept
    exactly when something is left after it. *)
Fixpoint trim_end (s : string) : string :=
  match s with
  | EmptyString => EmptyString
  | String c r =>
      match trim_end r with
      | EmptyString => if is_white_space c then EmptyString else String c EmptyString
      | r' => String c r'
      end
  end.

(** [s.trim()] *)
Definition trim (s : string) : string := trim_end (trim_start s).

(** [s] is empty or consists only of white space. *)
Fixpoint all_white_space (s : string) : bool :=
  match s with
  | EmptyString => true
  | String c r => is_white_space c && all_white_space r
  end.

(** Values that [JSON.stringify] serialises. *)
Inductive json : Type :=
| JNull
| JBool (b : bool)
| JNumber (z : Z)
| JString (s : string)
| JArray (items : list json)
| JObject (fields : list (string * json)).

Definition quote : ascii := ascii_of_nat 34.
Definition backslash : ascii := ascii_of_nat 92.

Definition hex_digit (n : nat) : ascii :=
  if Nat.ltb n 10 then ascii_of_nat (48 + n) else ascii_of_nat (87 + n).

(** The escape of one code unit inside a JSON string. *)
Definition escape_char (c : ascii) : string :=
  let n := nat_of_ascii c in
  if Nat.eqb n 34 then String backslash (String quote EmptyString)
  else if Nat.eqb n 92 then String backslash (String backslash EmptyString)
  else if Nat.eqb n 8 then String backslash "b"
  else if Nat.eqb n 9 then String backslash "t"
  else if Nat.eqb n 10 then String backslash "n"
  else if Nat.eqb n 12 then String backslash "f"
  else if Nat.eqb n 13 then String backslash "r"
  else if Nat.ltb n 32 then
    String backslash
      ("u00" +:+ String (hex_digit (Nat.div n 16))
                   (String (hex_digit (Nat.modulo n 16)) EmptyString))
  else String c EmptyString.

Fixpoint escape (s : string) : string :=
  match s with
  | EmptyString => EmptyString
  | String c r => escape_char c +:+ escape r
  end.

Definition quoted (s : string) : string :=
  String quote (escape s +:+ String quote EmptyString).

(** [JSON.stringify(j)], without indentation. *)
Fixpoint stringify (j : json) : string :=
  match j with
  | JNull => "null"
  | JBool true => "true"
  | JBool false => "false"
  | JNumber z => pretty z
  | JString s => quoted s
  | JArray items =>
      "[" +:+
      (fix go (l : list json) : string :=
         match l with
         | [] => EmptyString
         | x :: r =>
             match r with
             | [] => stringify x
             | _ :: _ => stringify x +:+ "," +:+ go r
             end
         end) items +:+ "]"
  | JObject fields =>
      "{" +:+
      (fix go (l : list (string * json)) : string :=
         match l with
         | [] => EmptyString
         | (k, v) :: r =>
             match r with
             | [] => quoted k +:+ ":" +:+ stringify v
             | _ :: _ => quoted k +:+ ":" +:+ stringify v +:+ "," +:+ go r
             end
         end) fields +:+ "}"
  end.

(** [o[k]] on an object value. *)
Fixpoint field (k : string) (fields : list (string * json)) : option json :=
  match fields with
  | [] => None
  | (k', v) :: r => if String.eqb k k' then Some v else field k r
  end.

(** The reading of the inside of a JSON string literal, for the escapes
    [escape] produces: what [JSON.parse] does with them. *)
Definition hex_value (c : ascii) : nat :=
  let n := nat_of_ascii c in
  if Nat.ltb n 58 then (n - 48)%nat else (n - 87)%nat.

Definition unescape_letter (e : ascii) : ascii :=
  let n := nat_of_ascii e in
  if Nat.eqb n 98 then ascii_of_nat 8
  else if Nat.eqb n 116 then ascii_of_nat 9
  else if Nat.eqb n 110 then ascii_of_nat 10
  else if Nat.eqb n 102 then ascii_of_nat 12
  else if Nat.eqb n 114 then ascii_of_nat 13
  else e.

Fixpoint unescape (s : string) : string :=
  match s with
  | EmptyString => EmptyString
  | String c r =>
      if Nat.eqb (nat_of_ascii c) 92 then
        match r with
        | EmptyString => EmptyString
        | String e r1 =>
            if Nat.eqb (nat_of_ascii e) 117 then
              match r1 with
              | String _ (String _ (String h (String l r2))) =>
                  String (ascii_of_nat (16 * hex_value h + hex_value l))
                         (unescape r2)
              | _ => EmptyString
              end
            else String (unescape_letter e) (unescape r1)
        end
      else String c (unescape r)
  end.

End JS.

(** ** Rows of the two tables *)

Module Customer.
(** A row of [customers]; [phone] is the key. *)
Record t : Type := {
  phone : string;
  display_name : option string;
  last_seen : option Z
}.
End Customer.

Module Message.
(** A row of [messages]. *)
Record t : Type := {
  id : Z;
  phone : string;
  body : string;
  direction : string;
  created_at : Z
}.
End Message.

(** ** The hosted backend, as far as the client's calls determine it *)

Module Backend.

(** What [await supabase.from(..)...] resolves to: [{ data, error }]. *)
Record Response (A : Type) : Type := {
  data : option A;
  error : option string
}.
Arguments data {A} _.
Arguments error {A} _.

(** [.eq("phone", p)] *)
Definition eq_phone (p : string) (rows : list Message.t) : list Message.t :=
  List.filter (fun m => String.eqb (Message.phone m) p) rows.

(** Insertion into a list ordered by [created_at]: descending when
    [ascending] is [false].  The backend does not fix the order of rows
    with equal [created_at]; here the row inserted goes first. *)
Fixpoint insert_by (ascending : bool) (m : Message.t) (l : list Message.t)
  : list Message.t :=
  match l with
  | [] => [m]
  | x :: r =>
      if (if ascending
          then Message.created_at m <=? Message.created_at x
          else Message.created_at x <=? Message.created_at m)
      then m :: l
      else x :: insert_by ascending m r
  end.

(** [.order("created_at", { ascending })] *)
Fixpoint order_created_at (ascending : bool) (rows : list Message.t)
  : list Message.t :=
  match rows with
  | [] => []
  | m :: r => insert_by ascending m (order_created_at ascending r)
  end.

(** The answer to
    [from("messages").select("*").eq("phone", p)
       .order("created_at", { ascending }).limit(n)]
    over the stored rows, when the query succeeds. *)
Definition select_messages (stored : list Message.t) (p : string)
    (ascending : bool) (n : nat) : Response (list Message.t) :=
  {| data := Some (take n (order_created_at ascending (eq_phone p stored)));
     error := None |}.

(** A realtime channel as the client configures it. *)
Record Channel : Type := {
  topic : string;
  event : string;
  table : string;
  filter : option string
}.

(** The server-side filter [phone=eq.<p>] of a [postgres_changes]
    subscription lets a row through when its [phone] column is [p]. *)
Definition passes (flt : option string) (row_phone : string) : bool :=
  match flt with
  | None => true
  | Some f => String.eqb f ("phone=eq." +:+ row_phone)
  end.

(** An INSERT on [messages] reaches the callback of [ch]. *)
Definition delivers_insert (ch : Channel) (row : Message.t) : bool :=
  String.eqb (event ch) "INSERT" && String.eqb (table ch) "messages"
  && passes (filter ch) (Message.phone row).

(** An UPDATE on [customers] reaches the callback of [ch]. *)
Definition delivers_update (ch : Channel) (row : Customer.t) : bool :=
  String.eqb (event ch) "UPDATE" && String.eqb (table ch) "customers"
  && passes (filter ch) (Customer.phone row).

End Backend.

(** ** [App]: the conversation list and the message thread *)

Module App.
Import JS Backend.

(** The three [useState] cells, the channel each effect's cleanup holds,
    and the [await]s that have not resumed yet. *)
Record State : Type := {
  conversations : list Customer.t;
  selectedPhone : option string;
  messages : list Message.t;
  customers_channel : option Channel;
  messages_channel : option Channel;
  loading_customers : bool;
  loading_messages : list string
}.

Definition setConversations (v : list Customer.t) (s : State) : State :=
  {| conversations := v; selectedPhone := selectedPhone s;
     messages := messages s; customers_channel := customers_channel s;
     messages_channel := messages_channel s;
     loading_customers := loading_customers s;
     loading_messages := loading_messages s |}.

Definition with_selectedPhone (v : option string) (s : State) : State :=
  {| conversations := conversations s; selectedPhone := v;
     messages := messages s; customers_channel := customers_channel s;
     messages_channel := messages_channel s;
     loading_customers := loading_customers s;
     loading_messages := loading_messages s |}.

Definition setMessages (v : list Message.t) (s : State) : State :=
  {| conversations := conversations s; selectedPhone := selectedPhone s;
     messages := v; customers_channel := customers_channel s;
     messages_channel := messages_channel s;
     loading_customers := loading_customers s;
     loading_messages := loading_messages s |}.

Definition set_customers_channel (v : option Channel) (s : State) : State :=
  {| conversations := conversations s; selectedPhone := selectedPhone s;
     messages := messages s; customers_channel := v;
     messages_channel := messages_channel s;
     loading_customers := loading_customers s;
     loading_messages := loading_messages s |}.

Definition set_messages_channel (v : option Channel) (s : State) : State :=
  {| conversations := conversations s; selectedPhone := selectedPhone s;
     messages := messages s; customers_channel := customers_channel s;
     messages_channel := v;
     loading_customers := loading_customers s;
     loading_messages := loading_messages s |}.

Definition set_loading_customers (v : bool) (s : State) : State :=
  {| conversations := conversations s; selectedPhone := selectedPhone s;
     messages := messages s; customers_channel := customers_channel s;
     messages_channel := messages_channel s;
     loading_customers := v;
     loading_messages := loading_messages s |}.

Definition set_loading_messages (v : list string) (s : State) : State :=
  {| conversations := conversations s; selectedPhone := selectedPhone s;
     messages := messages s; customers_channel := customers_channel s;
     messages_channel := messages_channel s;
     loading_customers := loading_customers s;
     loading_messages := v |}.

(** What a callback asks of the outside world. *)
Inductive Effect : Type :=
| Query (tbl : string) (eq_phone : option string) (order_by : string)
        (ascending : bool) (limit : option nat)
| Subscribe (ch : Channel)
| RemoveChannel (ch : Channel)
| ConsoleError (msg : string) (err : string).

(** What the outside world does to the component. *)
Inductive Event : Type :=
| CustomersLoaded (r : Response (list Customer.t))
| CustomerUpdated (new : Customer.t)
| Click (i : nat)
| MessagesLoaded (p : string) (r : Response (list Message.t))
| MessageInserted (new : Message.t).

Definition is_fetch_or_subscribe (e : Effect) : bool :=
  match e with
  | Query _ _ _ _ _ | Subscribe _ => true
  | RemoveChannel _ | ConsoleError _ _ => false
  end.

(** [prev.map((c) => c.phone === payload.new.phone ? payload.new : c)] *)
Definition on_customer_update (new : Customer.t) (prev : list Customer.t)
  : list Customer.t :=
  map (fun c => if String.eqb (Customer.phone c) (Customer.phone new)
                then new else c) prev.

(** [(prev) => [payload.new, ...prev]] *)
Definition on_message_insert (new : Message.t) (prev : list Message.t)
  : list Message.t :=
  new :: prev.

Definition customers_query : Effect :=
  Query "customers" None "last_seen" false None.

Definition messages_query (p : string) : Effect :=
  Query "messages" (Some p) "created_at" false (Some 100%nat).

Definition customers_subscription : Channel :=
  {| topic := "customers_channel"; event := "UPDATE";
     table := "customers"; filter := None |}.

Definition messages_subscription (p : string) : Channel :=
  {| topic := "messages_" +:+ p; event := "INSERT";
     table := "messages"; filter := Some ("phone=eq." +:+ p) |}.

(** The first effect (dependencies [[]]): [loadCustomers()] and the
    subscription to [customers_channel]. *)
Definition customers_effect (s : State) : State * list Effect :=
  (set_customers_channel (Some customers_subscription)
     (set_loading_customers true s),
   [customers_query; Subscribe customers_subscription]).

(** The cleanup the previous run of the second effect returned, if it
    returned one: [() => supabase.removeChannel(channel)]. *)
Definition messages_cleanup (s : State) : State * list Effect :=
  match messages_channel s with
  | Some ch => (set_messages_channel None s, [RemoveChannel ch])
  | None => (s, [])
  end.

(** The second effect (dependencies [[selectedPhone]]). *)
Definition messages_effect (s : State) : State * list Effect :=
  if negb (truthy (selectedPhone s)) then (s, [])
  else
    match selectedPhone s with
    | Some p =>
        (set_messages_channel (Some (messages_subscription p))
           (set_loading_messages (loading_messages s ++ [p]) s),
         [messages_query p; Subscribe (messages_subscription p)])
    | None => (s, [])
    end.

Definition initial : State :=
  {| conversations := []; selectedPhone := None; messages := [];
     customers_channel := None; messages_channel := None;
     loading_customers := false; loading_messages := [] |}.

(** First render, then both effects in source order. *)
Definition mount : State * list Effect :=
  let '(s1, e1) := customers_effect initial in
  let '(s2, e2) := messages_effect s1 in
  (s2, e1 ++ e2).

(** [setSelectedPhone(v)] and the render it causes: a value equal to the
    current one changes nothing; otherwise the second effect is cleaned
    up and run again. *)
Definition setSelectedPhone (v : string) (s : State) : State * list Effect :=
  if decide (selectedPhone s = Some v) then (s, [])
  else
    let '(s1, e1) := messages_cleanup (with_selectedPhone (Some v) s) in
    let '(s2, e2) := messages_effect s1 in
    (s2, e1 ++ e2).

(** One pending [loadMessages] call for [p] resumes. *)
Fixpoint resume (p : string) (pending : list string) : list string :=
  match pending with
  | [] => []
  | q :: r => if String.eqb q p then r else q :: resume p r
  end.

Definition step (s : State) (e : Event) : State * list Effect :=
  match e with
  | CustomersLoaded r =>
      if loading_customers s then
        let s' := set_loading_customers false s in
        match error r with
        | Some err => (s', [ConsoleError "Error loading customers:" err])
        | None => (setConversations (or_empty (data r)) s', [])
        end
      else (s, [])
  | CustomerUpdated new =>
      match customers_channel s with
      | Some ch =>
          if delivers_update ch new
          then (setConversations
                  (on_customer_update new (conversations s)) s, [])
          else (s, [])
      | None => (s, [])
      end
  | Click i =>
      match conversations s !! i with
      | Some c => setSelectedPhone (Customer.phone c) s
      | None => (s, [])
      end
  | MessagesLoaded p r =>
      if decide (p ∈ loading_messages s) then
        let s' := set_loading_messages (resume p (loading_messages s)) s in
        match error r with
        | Some err => (s', [ConsoleError "Error loading messages:" err])
        | None => (setMessages (or_empty (data r)) s', [])
        end
      else (s, [])
  | MessageInserted new =>
      match messages_channel s with
      | Some ch =>
          if delivers_insert ch new
          then (setMessages (on_message_insert new (messages s)) s, [])
          else (s, [])
      | None => (s, [])
      end
  end.

Definition run (s : State) (es : list Event) : State :=
  foldl (fun s e => fst (step s e)) s es.

Inductive reachable : State -> Prop :=
| reachable_mount : reachable (fst mount)
| reachable_step s e : reachable s -> reachable (fst (step s e)).

(** Every message in view belongs to the selected conversation. *)
Definition in_view_scoped (s : State) : Prop :=
  Forall (fun m => selectedPhone s = Some (Message.phone m)) (messages s).

(** The messages panel is a flex container; its children are
    [messages.map(...)] in list order. *)
Definition flexDirection : string := "column-reverse".

(** Top-to-bottom order in which a column flex container shows its
    children: [column-reverse] starts at the bottom. *)
Definition top_to_bottom {A : Type} (dir : string) (children : list A)
  : list A :=
  if String.eqb dir "column-reverse" then rev children else children.

(** The message bodies as shown, top (oldest) to bottom (newest). *)
Definition rendered (s : State) : list string :=
  top_to_bottom flexDirection (map Message.body (messages s)).

End App.

(** ** The backend answering the queries [App] issues *)

Module Hosted.
Import Backend.

(** The answer to a query on [messages], read off the query itself: its
    [.eq("phone", _)] filter if it has one, the direction of its
    [.order("created_at", _)], its [.limit(_)] if it has one.  Any other
    query is refused. *)
Definition answer (q : App.Effect) (stored : list Message.t)
  : Response (list Message.t) :=
  match q with
  | App.Query tbl flt order_by ascending lim =>
      if String.eqb tbl "messages" && String.eqb order_by "created_at"
      then
        let rows := match flt with
                    | Some p => eq_phone p stored
                    | None => stored
                    end in
        let sorted := order_created_at ascending rows in
        {| data := Some (match lim with
                         | Some n => take n sorted
                         | None => sorted
                         end);
           error := None |}
      else {| data := None; error := Some "relation does not exist" |}
  | App.Subscribe _ | App.RemoveChannel _ | App.ConsoleError _ _ =>
      {| data := None; error := Some "not a query" |}
  end.

(** The first query on [messages] among the effects, with the phone it
    asks for. *)
Fixpoint issued (effects : list App.Effect) : option (string * App.Effect) :=
  match effects with
  | [] => None
  | e :: r =>
      match e with
      | App.Query tbl (Some p) _ _ _ =>
          if String.eqb tbl "messages" then Some (p, e) else issued r
      | _ => issued r
      end
  end.

(** A click on row [i], and then the backend's answer, over the rows
    [stored], to the message query that click issued, if it issued one. *)
Definition click_and_load (s : App.State) (i : nat)
    (stored : list Message.t) : App.State :=
  let s1 := (App.step s (App.Click i)).1 in
  match issued (App.step s (App.Click i)).2 with
  | Some (p, q) => (App.step s1 (App.MessagesLoaded p (answer q stored))).1
  | None => s1
  end.

End Hosted.

(** The earlier [App] subscribed to every INSERT on [messages] and
    discarded rows of other conversations in the callback. *)
Module AppUnfiltered.

(** [if (msg.phone === selected) setMessages(prev => [msg, ...prev])] *)
Definition on_insert (selected : option string) (msg : Message.t)
    (prev : list Message.t) : list Message.t :=
  if decide (Some (Message.phone msg) = selected) then msg :: prev else prev.

End AppUnfiltered.

(** ** [ChatComposer]: the outbound relay *)

Module ChatComposer.
Import JS.

(** The arguments of [fetch]. *)
Record Request : Type := {
  url : string;
  method : string;
  headers : list (string * string);
  body : string
}.

(** How the promise [fetch] returns settles.  It is fulfilled as soon as
    a response arrives, whatever its status; it is rejected when no
    response arrives. *)
Inductive Settled : Type :=
| Fulfilled (status : Z)
| Rejected (err : string).

(** The composer after [send()] has run to its end: the [text] cell, the
    requests issued, the console output. *)
Record Outcome : Type := {
  text : string;
  requests : list Request;
  console : list (string * string)
}.

(** [{ phone: selectedPhone, text }] *)
Definition payload (selectedPhone text : string) : json :=
  JObject [("phone", JString selectedPhone); ("text", JString text)].

Definition post (selectedPhone text : string) : Request :=
  {| url := "/send"; method := "POST";
     headers := [("Content-Type", "application/json")];
     body := stringify (payload selectedPhone text) |}.

(** [send()], with [fetch] answering as the oracle says. *)
Definition send (selectedPhone : option string) (text : string)
    (fetch : Request -> Settled) : Outcome :=
  if negb (truthy selectedPhone) || negb (truthy_string (trim text))
  then {| text := text; requests := []; console := [] |}
  else
    match selectedPhone with
    | None => {| text := text; requests := []; console := [] |}
    | Some p =>
        let req := post p text in
        match fetch req with
        | Fulfilled _ =>
            {| text := EmptyString; requests := [req]; console := [] |}
        | Rejected err =>
            {| text := text; requests := [req];
               console := [("Failed to send message:", err)] |}
        end
    end.

End ChatComposer.

(** ** [supabaseClient]: the configuration module *)

Module SupabaseClient.
Import JS.

(** What [createClient(url, key)] is given. *)
Record Client : Type := {
  supabaseUrl : string;
  supabaseKey : string
}.

(** What evaluating the module does, in order. *)
Inductive Op : Type :=
| ReadEnv (name : string)
| CreateClient (c : Client).

(** Module evaluation over [import.meta.env]: the operations performed
    so far, and either the value or the message of the [Error] thrown. *)
Definition M (A : Type) : Type :=
  gmap string string -> list Op * (string + A).

Definition ret {A : Type} (a : A) : M A := fun _ => ([], inr a).

Definition bind {A B : Type} (m : M A) (k : A -> M B) : M B :=
  fun env =>
    match m env with
    | (ops, inl msg) => (ops, inl msg)
    | (ops, inr a) =>
        match k a env with
        | (ops', r) => (ops ++ ops', r)
        end
    end.

Definition read_env (name : string) : M (option string) :=
  fun env => ([ReadEnv name], inr (env !! name)).

Definition throw {A : Type} (msg : string) : M A := fun _ => ([], inl msg).

Definition createClient (u k : string) : M Client :=
  fun _ =>
    let c := {| supabaseUrl := u; supabaseKey := k |} in
    ([CreateClient c], inr c).

Notation "'let*' x ':=' m 'in' k" := (bind m (fun x => k))
  (at level 10, x name, m at level 100, k at level 200).

(** The module body; the value is the exported [supabase]. *)
Definition init : M Client :=
  let* supabaseUrl := read_env "VITE_SUPABASE_URL" in
  let* supabaseKey := read_env "VITE_SUPABASE_KEY" in
  if negb (truthy supabaseUrl)
  then throw "VITE_SUPABASE_URL is missing in your .env file"
  else if negb (truthy supabaseKey)
  then throw "VITE_SUPABASE_KEY is missing in your .env file"
  else createClient (default EmptyString supabaseUrl)
                    (default EmptyString supabaseKey).

Definition reads (ops : list Op) : list string :=
  omap (fun o => match o with ReadEnv n => Some n | CreateClient _ => None end) ops.

Definition clients (ops : list Op) : list Client :=
  omap (fun o => match o with CreateClient c => Some c | ReadEnv _ => None end) ops.

End SupabaseClient.

(** ** [api/index.js]: the request-forwarding handler *)

Module Api.
Import JS.

(** The request object is not a tree: its properties hold other objects,
    the same object can hang off several of them, and an object can be
    reached from itself.  So values refer to objects by address, and the
    objects live on a heap. *)
Inductive value : Type :=
| VUndefined
| VNull
| VBool (b : bool)
| VNumber (text : string)
| VString (s : string)
| VRef (address : nat).

(** [VUndefined] stands for [undefined], a function or a symbol, which
    [JSON.stringify] leaves out; [VNumber] carries a finite number by the
    text [JSON.stringify] prints for it; an address with no object on the
    heap counts as [undefined]. *)
Inductive object : Type :=
| Obj (properties : list (string * value))
| Arr (items : list value).

(** What serialising a value comes to: its text, nothing (the value is
    left out), or the [TypeError] of a circular structure.  [Exhausted]
    is the recursion running out of [fuel]. *)
Inductive serialised : Type :=
| Text (s : string)
| Nothing
| Circular
| Exhausted.

(** [JSON.stringify] on a value, [stack] being the objects it is inside
    of: an object met again while it is being serialised is a cycle. *)
Fixpoint stringify_value (fuel : nat) (heap : gmap nat object)
    (stack : list nat) (v : value) : serialised :=
  match v with
  | VUndefined => Nothing
  | VNull => Text "null"
  | VBool true => Text "true"
  | VBool false => Text "false"
  | VNumber text => Text text
  | VString s => Text (quoted s)
  | VRef a =>
      if decide (a ∈ stack) then Circular
      else
        match fuel with
        | O => Exhausted
        | S fuel' =>
            match heap !! a with
            | None => Nothing
            | Some (Obj properties) =>
                (fix members (l : list (string * value)) (first : bool)
                     (acc : string) : serialised :=
                   match l with
                   | [] => Text (acc +:+ "}")
                   | (k, x) :: r =>
                       match stringify_value fuel' heap (a :: stack) x with
                       | Text t =>
                           members r false
                             (acc +:+ (if first then EmptyString else ",")
                                  +:+ quoted k +:+ ":" +:+ t)
                       | Nothing => members r first acc
                       | Circular => Circular
                       | Exhausted => Exhausted
                       end
                   end) properties true "{"
            | Some (Arr items) =>
                (fix elements (l : list value) (first : bool)
                     (acc : string) : serialised :=
                   match l with
                   | [] => Text (acc +:+ "]")
                   | x :: r =>
                       match stringify_value fuel' heap (a :: stack) x with
                       | Text t =>
                           elements r false
                             (acc +:+ (if first then EmptyString else ",") +:+ t)
                       | Nothing =>
                           elements r false
                             (acc +:+ (if first then EmptyString else ",")
                                  +:+ "null")
                       | Circular => Circular
                       | Exhausted => Exhausted
                       end
                   end) items true "["
            end
        end
  end.

(** [JSON.stringify(v)]: an object is entered at most once on the way
    down, so one unit of fuel per object of the heap is enough. *)
Definition JSON_stringify (heap : gmap nat object) (v : value) : serialised :=
  stringify_value (S (size heap)) heap [] v.

(** [JSON.stringify({ req, env: process.env })]: [req] first, then the
    environment, whose values are strings. *)
Definition stringify_envelope (heap : gmap nat object) (req : value)
    (env : list (string * string)) : serialised :=
  let env_text :=
    stringify (JObject (map (fun kv => (kv.1, JString kv.2)) env)) in
  match JSON_stringify heap req with
  | Text t =>
      Text ("{" +:+ quoted "req" +:+ ":" +:+ t +:+ ","
                +:+ quoted "env" +:+ ":" +:+ env_text +:+ "}")
  | Nothing => Text ("{" +:+ quoted "env" +:+ ":" +:+ env_text +:+ "}")
  | Circular => Circular
  | Exhausted => Exhausted
  end.

(** What the handler does to the child process and to [res]. *)
Inductive Action : Type :=
| Spawn (command : string) (args : list string) (stdio : list string)
| StdinWrite (chunk : string)
| StdinEnd
| Respond (status : Z) (body : string).

(** What the child process does: a chunk of bytes on its standard
    output, or its end, with the exit code ([null] when a signal killed
    it). *)
Inductive ChildEvent : Type :=
| Data (d : list Byte.byte)
| Close (code : option Z).

(** The closure variable [out], the actions so far, whether the two
    listeners have been registered, and the exception the handler was
    left with, if any. *)
Record Handler : Type := {
  out : string;
  actions : list Action;
  listening : bool;
  thrown : option string
}.

(** The body of the handler; [script] is
    [path.join(__dirname, 'index.py')].  When [JSON.stringify] throws,
    the handler is left right after [spawn]: nothing is written, the
    stream is not ended and no listener is registered. *)
Definition handle (script : string) (heap : gmap nat object) (req : value)
    (env : list (string * string)) : Handler :=
  let spawned := [Spawn "python3" [script] ["pipe"; "pipe"; "inherit"]] in
  match stringify_envelope heap req env with
  | Text payload =>
      {| out := EmptyString;
         actions := spawned ++ [StdinWrite payload; StdinEnd];
         listening := true; thrown := None |}
  | Nothing =>
      (* [write(undefined)] throws as well *)
      {| out := EmptyString; actions := spawned;
         listening := false; thrown := Some "TypeError" |}
  | Circular =>
      {| out := EmptyString; actions := spawned; listening := false;
         thrown := Some "TypeError: Converting circular structure to JSON" |}
  | Exhausted =>
      {| out := EmptyString; actions := spawned; listening := false;
         thrown := Some "RangeError: Maximum call stack size exceeded" |}
  end.

(** [code === 0 ? 200 : 500] *)
Definition status_of (code : option Z) : Z :=
  match code with
  | Some 0 => 200
  | _ => 500
  end.

(** The two listeners, if they were registered.  [out += d] turns the
    chunk into a string by itself; [toString] is that conversion of a
    [Buffer]. *)
Definition on_event (toString : list Byte.byte -> string)
    (h : Handler) (e : ChildEvent) : Handler :=
  if listening h then
    match e with
    | Data d =>
        {| out := out h +:+ toString d; actions := actions h;
           listening := true; thrown := thrown h |}
    | Close code =>
        {| out := out h;
           actions := actions h ++ [Respond (status_of code) (out h)];
           listening := true; thrown := thrown h |}
    end
  else h.

(** A request served by a child that writes [chunks] and then exits. *)
Definition serve (toString : list Byte.byte -> string) (script : string)
    (heap : gmap nat object) (req : value) (env : list (string * string))
    (chunks : list (list Byte.byte)) (code : option Z) : Handler :=
  on_event toString
    (foldl (on_event toString) (handle script heap req env)
       (map Data chunks))
    (Close code).

End Api.

(** * Predicates and scenarios the properties are stated with *)

(** ** State predicates *)

(** The message subscription is the one of the selected conversation, and
    there is none when nothing is selected. *)
Definition channels_scoped (s : App.State) : Prop :=
  App.customers_channel s = Some App.customers_subscription
  /\ App.messages_channel s =
     match App.selectedPhone s with
     | Some p => if JS.truthy_string p
                 then Some (App.messages_subscription p) else None
     | None => None
     end.

(** While the selection is [null] nothing was ever fetched or shown. *)
Definition idle_when_null (s : App.State) : Prop :=
  App.selectedPhone s = None ->
  App.messages s = [] /\ App.loading_messages s = [].

(** A query on [messages], or a subscription to it. *)
Definition is_message_fetch_or_subscribe (e : App.Effect) : bool :=
  match e with
  | App.Query tbl _ _ _ _ => String.eqb tbl "messages"
  | App.Subscribe ch => String.eqb (Backend.table ch) "messages"
  | App.RemoveChannel _ | App.ConsoleError _ _ => false
  end.


(** [a] comes no later than [b] in the order the query asks for. *)
Definition in_order (ascending : bool) (a b : Message.t) : Prop :=
  if ascending
  then Message.created_at a <= Message.created_at b
  else Message.created_at b <= Message.created_at a.

(** The creation times as the panel shows them, top to bottom. *)
Definition rendered_times (s : App.State) : list Z :=
  App.top_to_bottom App.flexDirection (map Message.created_at (App.messages s)).

(** ** Requests and output *)

(** A success status: 2xx. *)
Definition success_status (status : Z) : bool :=
  (200 <=? status) && (status <=? 299).

(** A request that failed: no response, or a response whose status is
    not a success status. *)
Definition request_failed (r : ChatComposer.Settled) : bool :=
  match r with
  | ChatComposer.Rejected _ => true
  | ChatComposer.Fulfilled status => negb (success_status status)
  end.

(** The chunks, one after the other. *)
Definition concatenation (chunks : list string) : string :=
  foldr String.append EmptyString chunks.

(** A request object as the server hands it over, cut down to what
    matters: the request holds its socket, the socket its parser, and
    the parser holds the socket and the request again. *)
Definition request_heap : gmap nat Api.object :=
  {[ 0%nat := Api.Obj [("method", Api.VString "POST");
                       ("url", Api.VString "/send");
                       ("socket", Api.VRef 1)];
     1%nat := Api.Obj [("parser", Api.VRef 2)];
     2%nat := Api.Obj [("socket", Api.VRef 1); ("incoming", Api.VRef 0)] ]}.

(** A request-like object with nothing circular in it. *)
Definition plain_heap : gmap nat Api.object :=
  {[ 0%nat := Api.Obj [("method", Api.VString "POST");
                       ("url", Api.VString "/send");
                       ("headers", Api.VRef 1)];
     1%nat := Api.Obj [("host", Api.VString "localhost")] ]}.

(** ** Scenarios *)

(** Customer rows. *)
Definition alice : Customer.t :=
  {| Customer.phone := "+15551234"; Customer.display_name := Some "Alice";
     Customer.last_seen := Some 20 |}.

Definition bob : Customer.t :=
  {| Customer.phone := "+15559999"; Customer.display_name := None;
     Customer.last_seen := Some 10 |}.

Definition bob_seen : Customer.t :=
  {| Customer.phone := "+15559999"; Customer.display_name := Some "Bob";
     Customer.last_seen := Some 30 |}.

Definition carol : Customer.t :=
  {| Customer.phone := "+15550000"; Customer.display_name := Some "Carol";
     Customer.last_seen := Some 40 |}.

(** Message rows, created at [t]. *)
Definition hi (t : Z) : Message.t :=
  {| Message.id := 1; Message.phone := "+15551234"; Message.body := "hi";
     Message.direction := "incoming"; Message.created_at := t |}.

Definition there (t : Z) : Message.t :=
  {| Message.id := 2; Message.phone := "+15551234"; Message.body := "there";
     Message.direction := "outgoing"; Message.created_at := t |}.

Definition ok_message (t : Z) : Message.t :=
  {| Message.id := 3; Message.phone := "+15551234"; Message.body := "ok";
     Message.direction := "outgoing"; Message.created_at := t |}.

Definition stray (t : Z) : Message.t :=
  {| Message.id := 4; Message.phone := "+15559999"; Message.body := "hello";
     Message.direction := "incoming"; Message.created_at := t |}.

(** A successful answer to the customer query. *)
Definition customers_loaded (rows : list Customer.t) : App.Event :=
  App.CustomersLoaded {| Backend.data := Some rows; Backend.error := None |}.

(** The backend's answer, over the rows [stored], to the message query
    [App] issues for [p]. *)
Definition messages_loaded (p : string) (stored : list Message.t) : App.Event :=
  App.MessagesLoaded p (Hosted.answer (App.messages_query p) stored).

(** Mounted, with the conversation list [alice; bob] loaded. *)
Definition two_conversations : App.State :=
  App.run App.mount.1 [customers_loaded [alice; bob]].


(** Mounted, conversation list [rows] loaded, its first row clicked and
    the message fetch answered from [stored]. *)
Definition thread_open (rows : list Customer.t) (stored : list Message.t)
  : App.State :=
  App.run App.mount.1
    [customers_loaded rows; App.Click 0;
     messages_loaded "+15551234" stored].


(** A network that settles every request the same way. *)
Definition answers (r : ChatComposer.Settled)
  : ChatComposer.Request -> ChatComposer.Settled :=
  fun _ => r.

(** * More of the code *)

(** ** What [App] and [ChatComposer] render *)

Module View.
Import JS.




(** [alignSelf: m.direction === "outgoing" ? "flex-end" : "flex-start"] *)
Definition alignSelf (m : Message.t) : string :=
  if String.eqb (Message.direction m) "outgoing"
  then "flex-end" else "flex-start".

(** [background: m.direction === "outgoing" ? "#dcf8c6" : "#fff"] *)
Definition bubble_background (m : Message.t) : string :=
  if String.eqb (Message.direction m) "outgoing" then "#dcf8c6" else "#fff".

(** [placeholder={selectedPhone ? "Type a message" : "Select a conversation"}] *)
Definition placeholder (selectedPhone : option string) : string :=
  if truthy selectedPhone then "Type a message" else "Select a conversation".

End View.

(** ** The channels the client holds open *)

Module Realtime.
Import Backend.

#[global] Instance Channel_eq_dec : EqDecision Channel.
Proof. solve_decision. Defined.

(** [removeChannel(ch)]: the channel leaves the client's list. *)
Fixpoint remove (ch : Channel) (held : list Channel) : list Channel :=
  match held with
  | [] => []
  | c :: r => if decide (c = ch) then r else c :: remove ch r
  end.

(** What one effect of [App] does to the client's list of channels:
    [subscribe()] adds the channel, [removeChannel] takes it out. *)
Definition apply (held : list Channel) (e : App.Effect) : list Channel :=
  match e with
  | App.Subscribe ch => held ++ [ch]
  | App.RemoveChannel ch => remove ch held
  | App.Query _ _ _ _ _ | App.ConsoleError _ _ => held
  end.

(** The channels held after a sequence of effects, oldest first. *)
Definition held_after (effects : list App.Effect) : list Channel :=
  foldl apply [] effects.

(** Everything [App] asks of the outside world while [es] happen to
    [s], in order. *)
Fixpoint effects_of (s : App.State) (es : list App.Event) : list App.Effect :=
  match es with
  | [] => []
  | e :: es => (App.step s e).2 ++ effects_of (App.step s e).1 es
  end.

(** From the mount on. *)
Definition session_effects (es : list App.Event) : list App.Effect :=
  App.mount.2 ++ effects_of App.mount.1 es.

Definition session_state (es : list App.Event) : App.State :=
  App.run App.mount.1 es.

End Realtime.

(** ** The composer without [try]/[catch]

    The earlier [ChatComposer.send] awaits [fetch] outside any [try]: a
    rejection leaves [send] at the [await]. *)

Module ChatComposerUncaught.
Import JS.

(** The composer after [send()]: the [text] cell, the requests issued,
    and what the promise [send()] returned was rejected with, if it was. *)
Record Outcome : Type := {
  text : string;
  requests : list ChatComposer.Request;
  rejection : option string
}.

Definition send (selected : option string) (txt : string)
    (fetch : ChatComposer.Request -> ChatComposer.Settled) : Outcome :=
  if negb (truthy selected) || negb (truthy_string (trim txt))
  then {| text := txt; requests := []; rejection := None |}
  else
    match selected with
    | None => {| text := txt; requests := []; rejection := None |}
    | Some p =>
        let req := ChatComposer.post p txt in
        match fetch req with
        | ChatComposer.Fulfilled _ =>
            {| text := EmptyString; requests := [req]; rejection := None |}
        | ChatComposer.Rejected err =>
            {| text := txt; requests := [req]; rejection := Some err |}
        end
    end.

End ChatComposerUncaught.

(** ** The earlier [App], whole

    One effect, run again whenever [selected] changes, loads the
    customers and subscribes to every INSERT on [messages]; a second one
    loads the messages.  Neither looks at [error]. *)

Module AppReloading.
Import JS Backend.

(** [subscription] is the open subscription, with the value of
    [selected] its callback was created with. *)
Record State : Type := {
  conversations : list Customer.t;
  selected : option string;
  messages : list Message.t;
  subscription : option (option string);
  loading_customers : nat;
  loading_messages : list string
}.

Inductive Effect : Type :=
| Query (tbl : string) (eq_phone : option string) (order_by : string)
        (ascending : bool) (limit : option nat)
| Subscribe (tbl : string) (event : string)
| RemoveSubscription (tbl : string) (event : string).

Inductive Event : Type :=
| CustomersLoaded (r : Response (list Customer.t))
| Click (i : nat)
| MessagesLoaded (p : string) (r : Response (list Message.t))
| MessageInserted (new : Message.t).

Definition initial : State :=
  {| conversations := []; selected := None; messages := [];
     subscription := None; loading_customers := 0; loading_messages := [] |}.

(** The first effect: [loadCustomers()], then the subscription. *)
Definition subscribe_effect (s : State) : State * list Effect :=
  ({| conversations := conversations s; selected := selected s;
      messages := messages s; subscription := Some (selected s);
      loading_customers := S (loading_customers s);
      loading_messages := loading_messages s |},
   [Query "customers" None "last_seen" false None;
    Subscribe "messages" "INSERT"]).

(** Its cleanup: [supabase.removeSubscription(subscription)]. *)
Definition subscribe_cleanup (s : State) : State * list Effect :=
  match subscription s with
  | Some _ =>
      ({| conversations := conversations s; selected := selected s;
          messages := messages s; subscription := None;
          loading_customers := loading_customers s;
          loading_messages := loading_messages s |},
       [RemoveSubscription "messages" "INSERT"])
  | None => (s, [])
  end.

(** The second effect: [loadMessages()], which returns at once when
    nothing is selected. *)
Definition messages_effect (s : State) : State * list Effect :=
  if negb (truthy (selected s)) then (s, [])
  else
    match selected s with
    | Some p =>
        ({| conversations := conversations s; selected := selected s;
            messages := messages s; subscription := subscription s;
            loading_customers := loading_customers s;
            loading_messages := loading_messages s ++ [p] |},
         [Query "messages" (Some p) "created_at" false (Some 100%nat)])
    | None => (s, [])
    end.

Definition mount : State * list Effect :=
  let '(s1, e1) := subscribe_effect initial in
  let '(s2, e2) := messages_effect s1 in
  (s2, e1 ++ e2).

(** [setSelected(v)] and the render it causes: both effects depend on
    [selected]. *)
Definition setSelected (v : string) (s : State) : State * list Effect :=
  if decide (selected s = Some v) then (s, [])
  else
    let s0 := {| conversations := conversations s; selected := Some v;
                 messages := messages s; subscription := subscription s;
                 loading_customers := loading_customers s;
                 loading_messages := loading_messages s |} in
    let '(s1, e1) := subscribe_cleanup s0 in
    let '(s2, e2) := subscribe_effect s1 in
    let '(s3, e3) := messages_effect s2 in
    (s3, e1 ++ e2 ++ e3).

Definition step (s : State) (e : Event) : State * list Effect :=
  match e with
  | CustomersLoaded r =>
      match loading_customers s with
      | O => (s, [])
      | S n =>
          ({| conversations := or_empty (data r); selected := selected s;
              messages := messages s; subscription := subscription s;
              loading_customers := n;
              loading_messages := loading_messages s |}, [])
      end
  | Click i =>
      match conversations s !! i with
      | Some c => setSelected (Customer.phone c) s
      | None => (s, [])
      end
  | MessagesLoaded p r =>
      if decide (p ∈ loading_messages s) then
        ({| conversations := conversations s; selected := selected s;
            messages := or_empty (data r); subscription := subscription s;
            loading_customers := loading_customers s;
            loading_messages := App.resume p (loading_messages s) |}, [])
      else (s, [])
  | MessageInserted new =>
      match subscription s with
      | Some closed_over =>
          ({| conversations := conversations s; selected := selected s;
              messages := AppUnfiltered.on_insert closed_over new (messages s);
              subscription := subscription s;
              loading_customers := loading_customers s;
              loading_messages := loading_messages s |}, [])
      | None => (s, [])
      end
  end.

Definition run (s : State) (es : list Event) : State :=
  foldl (fun s e => fst (step s e)) s es.

Inductive reachable : State -> Prop :=
| reachable_mount : reachable (fst mount)
| reachable_step s e : reachable s -> reachable (fst (step s e)).

End AppReloading.

(** ** The later [App]: ascending fetch, append, plain column

    It differs from [App] in the order of the message query, in where the
    INSERT callback puts the row and in the direction of the panel. *)

Module AppAscending.
Import JS Backend.

Definition messages_query (p : string) : App.Effect :=
  App.Query "messages" (Some p) "created_at" true (Some 100%nat).

(** [(prev) => [...prev, payload.new]] *)
Definition on_message_insert (new : Message.t) (prev : list Message.t)
  : list Message.t :=
  prev ++ [new].

Definition flexDirection : string := "column".

(** The message list once the backend has answered, over the rows
    [stored], the query issued for [p] ([setMessages(data || [])]) and
    the INSERT events [news] were delivered, in that order. *)
Definition thread (stored : list Message.t) (p : string)
    (news : list Message.t) : list Message.t :=
  foldl (fun prev new => on_message_insert new prev)
        (or_empty (data (Hosted.answer (messages_query p) stored))) news.

Definition rendered (msgs : list Message.t) : list string :=
  App.top_to_bottom flexDirection (map Message.body msgs).

Definition rendered_times (msgs : list Message.t) : list Z :=
  App.top_to_bottom flexDirection (map Message.created_at msgs).

End AppAscending.

(** ** Scenarios for the above *)

(** Alice clicked, then Bob, no fetch answered yet. *)
Definition both_loading : App.State :=
  App.run App.mount.1 [customers_loaded [alice; bob]; App.Click 0; App.Click 1].

(** A failed answer. *)
Definition failed {A : Type} (err : string) : Backend.Response A :=
  {| Backend.data := None; Backend.error := Some err |}.

(** * Properties *)

(** ** Facts about the embedded helpers *)

Section ConversationUpdate.
Variable new : Customer.t.

Lemma on_customer_update_length prev :
  List.length (App.on_customer_update new prev) = List.length prev.
Proof. unfold App.on_customer_update. apply length_map. Qed.

Lemma on_customer_update_lookup prev (i : nat) :
  App.on_customer_update new prev !! i =
  (fun c => if String.eqb (Customer.phone c) (Customer.phone new)
            then new else c) <$> (prev !! i).
Proof. unfold App.on_customer_update. apply list_lookup_fmap. Qed.

Lemma on_customer_update_phones prev :
  map Customer.phone (App.on_customer_update new prev) =
  map Customer.phone prev.
Proof.
  induction prev as [|c prev IH]; simpl; [reflexivity|].
  rewrite IH. f_equal.
  destruct (String.eqb_spec (Customer.phone c) (Customer.phone new));
    congruence.
Qed.

Lemma on_customer_update_no_match prev :
  Forall (fun c => Customer.phone c <> Customer.phone new) prev ->
  App.on_customer_update new prev = prev.
Proof.
  induction 1 as [|c prev Hc _ IH]; simpl; [reflexivity|].
  rewrite IH. f_equal.
  destruct (String.eqb_spec (Customer.phone c) (Customer.phone new));
    [contradiction | reflexivity].
Qed.
End ConversationUpdate.

(** ** Invariants of the reachable states *)

Lemma channels_scoped_select v s :
  channels_scoped s -> channels_scoped (App.setSelectedPhone v s).1.
Proof.
  intros [Hc Hm]. unfold App.setSelectedPhone.
  destruct (decide (App.selectedPhone s = Some v)) as [|Hne]; [by split|].
  unfold App.messages_cleanup, App.messages_effect.
  destruct (App.messages_channel s) as [ch|] eqn:Hch; simpl; rewrite ?Hch;
    destruct v as [|a v]; simpl; by split.
Qed.

Lemma channels_scoped_step s e :
  channels_scoped s -> channels_scoped (App.step s e).1.
Proof.
  intros Hs. pose proof Hs as [Hc Hm].
  destruct e as [r|new|i|p r|new]; simpl.
  - destruct (App.loading_customers s); [|exact Hs].
    destruct (Backend.error r); split; assumption.
  - rewrite Hc.
    destruct (Backend.delivers_update _ _); [split; assumption | exact Hs].
  - destruct (App.conversations s !! i); [|exact Hs].
    by apply channels_scoped_select.
  - destruct (decide (p ∈ App.loading_messages s)); [|exact Hs].
    destruct (Backend.error r); split; assumption.
  - destruct (App.messages_channel s) as [ch|] eqn:Hch; [|exact Hs].
    destruct (Backend.delivers_insert ch new); [|exact Hs].
    split; simpl; [assumption | by rewrite Hch].
Qed.

Lemma reachable_channels_scoped s : App.reachable s -> channels_scoped s.
Proof.
  induction 1 as [|s e _ IH].
  - by split.
  - by apply channels_scoped_step.
Qed.

Lemma reachable_run s es : App.reachable s -> App.reachable (App.run s es).
Proof.
  revert s. induction es as [|e es IH]; intros s Hs; simpl; [exact Hs|].
  apply IH. by constructor.
Qed.

(** The update subscription is unfiltered: once mounted, every UPDATE on
    [customers] reaches the callback. *)
Lemma reachable_step_customer_updated s new :
  App.reachable s ->
  App.step s (App.CustomerUpdated new) =
  (App.setConversations (App.on_customer_update new (App.conversations s)) s, []).
Proof.
  intros Hs. destruct (reachable_channels_scoped s Hs) as [Hc _].
  simpl. by rewrite Hc.
Qed.

(** ** The conversation list *)

Lemma two_conversations_reachable : App.reachable two_conversations.
Proof. apply reachable_run, App.reachable_mount. Qed.

(** C4: for every UPDATE event on the conversation store and every
    current conversation list, the callback puts the payload row at
    exactly the positions whose phone key equals the payload's phone and
    leaves every other entry as it was; the length of the list and the
    order of its keys are preserved (there is no re-sort). *)
Theorem C4_update_replaces_matching_entry (s : App.State) (new : Customer.t) :
  App.reachable s ->
  let prev := App.conversations s in
  let next := App.conversations (App.step s (App.CustomerUpdated new)).1 in
  List.length next = List.length prev
  /\ map Customer.phone next = map Customer.phone prev
  /\ forall (i : nat) (c : Customer.t),
       prev !! i = Some c ->
       (Customer.phone c = Customer.phone new -> next !! i = Some new)
       /\ (Customer.phone c <> Customer.phone new -> next !! i = Some c).
Proof.
  intros Hs prev next. subst prev next.
  rewrite (reachable_step_customer_updated s new Hs). simpl.
  split; [apply on_customer_update_length|].
  split; [apply on_customer_update_phones|].
  intros i c Hi. rewrite on_customer_update_lookup, Hi. simpl.
  destruct (String.eqb_spec (Customer.phone c) (Customer.phone new));
    split; intros; congruence.
Qed.

Lemma C4_update_replaces_matching_entry_witness :
  App.conversations
    (App.step two_conversations (App.CustomerUpdated bob_seen)).1
  = [alice; bob_seen].
Proof.
  destruct (C4_update_replaces_matching_entry two_conversations bob_seen
              two_conversations_reachable) as (Hlen & _ & Hat).
  destruct (Hat 0%nat alice eq_refl) as [_ H0].
  destruct (Hat 1%nat bob eq_refl) as [H1 _].
  specialize (H0 ltac:(discriminate)). specialize (H1 eq_refl).
  destruct (App.conversations _) as [|x [|y [|z l]]];
    try discriminate Hlen.
  simpl in H0, H1. congruence.
Defined.

(** C9: an UPDATE event whose phone key matches no entry of the current
    conversation list leaves the list as it is; no update event inserts
    or deletes an entry: the keys of the list, in order, and its length
    are the same before and after. *)
Theorem C9_update_never_inserts_or_deletes (s : App.State) (new : Customer.t) :
  App.reachable s ->
  let prev := App.conversations s in
  let next := App.conversations (App.step s (App.CustomerUpdated new)).1 in
  (Forall (fun c => Customer.phone c <> Customer.phone new) prev -> next = prev)
  /\ map Customer.phone next = map Customer.phone prev
  /\ List.length next = List.length prev.
Proof.
  intros Hs prev next. subst prev next.
  rewrite (reachable_step_customer_updated s new Hs). simpl.
  split; [apply on_customer_update_no_match|].
  split; [apply on_customer_update_phones | apply on_customer_update_length].
Qed.

Lemma C9_update_never_inserts_or_deletes_witness :
  App.conversations
    (App.step two_conversations (App.CustomerUpdated carol)).1
  = [alice; bob].
Proof.
  destruct (C9_update_never_inserts_or_deletes two_conversations carol
              two_conversations_reachable) as (Hsame & _ & _).
  apply Hsame. repeat constructor; discriminate.
Defined.

(** ** [trim] and the emptiness guard *)

Lemma trim_start_blank s :
  JS.all_white_space s = true -> JS.trim_start s = EmptyString.
Proof.
  induction s as [|c r IH]; simpl; [reflexivity|].
  destruct (JS.is_white_space c); simpl; [exact IH | discriminate].
Qed.

Lemma trim_start_not_blank s :
  JS.all_white_space s = false ->
  exists c r, JS.trim_start s = String c r /\ JS.is_white_space c = false.
Proof.
  induction s as [|c r IH]; simpl; [discriminate|].
  destruct (JS.is_white_space c) eqn:Hc; simpl; [exact IH|].
  intros _. by exists c, r.
Qed.

Lemma trim_blank s : JS.all_white_space s = true -> JS.trim s = EmptyString.
Proof. intros H. unfold JS.trim. by rewrite trim_start_blank. Qed.

Lemma trim_not_blank s :
  JS.all_white_space s = false -> JS.truthy_string (JS.trim s) = true.
Proof.
  intros H. unfold JS.trim.
  destruct (trim_start_not_blank s H) as (c & r & -> & Hc).
  simpl. rewrite Hc. by destruct (JS.trim_end r).
Qed.

(** The guard of [send] lets a call through exactly when a conversation is
    selected and the text is not blank. *)
Lemma send_guard_blank sel txt fetch :
  JS.all_white_space txt = true ->
  ChatComposer.send sel txt fetch =
  {| ChatComposer.text := txt; ChatComposer.requests := [];
     ChatComposer.console := [] |}.
Proof.
  intros H. unfold ChatComposer.send. rewrite (trim_blank txt H). simpl.
  by rewrite orb_true_r.
Qed.

Lemma send_guard_passed p txt fetch :
  JS.truthy_string p = true -> JS.all_white_space txt = false ->
  ChatComposer.send (Some p) txt fetch =
  match fetch (ChatComposer.post p txt) with
  | ChatComposer.Fulfilled _ =>
      {| ChatComposer.text := EmptyString;
         ChatComposer.requests := [ChatComposer.post p txt];
         ChatComposer.console := [] |}
  | ChatComposer.Rejected err =>
      {| ChatComposer.text := txt;
         ChatComposer.requests := [ChatComposer.post p txt];
         ChatComposer.console := [("Failed to send message:", err)] |}
  end.
Proof.
  intros Hp H. unfold ChatComposer.send. simpl.
  by rewrite Hp, (trim_not_blank txt H).
Qed.

(** ** [JSON.stringify] loses nothing of a string *)

#[local] Arguments String.append !_ _ / : simpl nomatch.

Lemma unescape_escape_char c rest :
  JS.unescape (JS.escape_char c +:+ rest) = String c (JS.unescape rest).
Proof.
  destruct c as [[] [] [] [] [] [] [] []]; reflexivity.
Qed.

Lemma append_assoc (a b c : string) : (a +:+ b) +:+ c = a +:+ (b +:+ c).
Proof. induction a as [|x a IH]; simpl; [reflexivity | by rewrite IH]. Qed.

Lemma unescape_escape s rest :
  JS.unescape (JS.escape s +:+ rest) = s +:+ JS.unescape rest.
Proof.
  induction s as [|c s IH]; [reflexivity|].
  change (JS.escape (String c s)) with (JS.escape_char c +:+ JS.escape s).
  rewrite append_assoc, unescape_escape_char, IH. reflexivity.
Qed.

Lemma append_inj_l (a x y : string) : a +:+ x = a +:+ y -> x = y.
Proof. induction a as [|c a IH]; simpl; [auto | intros [= H]; auto]. Qed.

Lemma append_length (a b : string) :
  String.length (a +:+ b) = (String.length a + String.length b)%nat.
Proof. induction a as [|c a IH]; simpl; [reflexivity | by rewrite IH]. Qed.

Lemma append_inj_r (x y a : string) : x +:+ a = y +:+ a -> x = y.
Proof.
  revert y. induction x as [|c x IH]; intros [|d y] H; simpl in H.
  - reflexivity.
  - apply (f_equal String.length) in H. simpl in H.
    rewrite append_length in H. lia.
  - apply (f_equal String.length) in H. simpl in H.
    rewrite append_length in H. lia.
  - injection H as -> H. f_equal. by apply IH.
Qed.

Lemma escape_quoted_inj (a b rest : string) :
  JS.escape a +:+ String JS.quote rest = JS.escape b +:+ String JS.quote rest ->
  a = b.
Proof.
  intros H. apply (f_equal JS.unescape) in H.
  rewrite !unescape_escape in H. by apply append_inj_r in H.
Qed.

(** The request body determines the text it was built from. *)
Lemma post_body_inj p t1 t2 :
  ChatComposer.body (ChatComposer.post p t1) =
  ChatComposer.body (ChatComposer.post p t2) -> t1 = t2.
Proof.
  unfold ChatComposer.post, ChatComposer.payload. simpl.
  unfold JS.quoted. simpl. intros [= H].
  rewrite !append_assoc in H. apply append_inj_l in H.
  simpl in H. injection H as H.
  rewrite !append_assoc in H. simpl in H.
  by apply escape_quoted_inj in H.
Qed.

(** ** The composer *)

(** C7: a send attempt whose text is empty or consists only of white
    space performs no network call and leaves the composer as it was,
    whatever is selected and whatever the network would answer. *)
Theorem C7_blank_text_sends_nothing
    (sel : option string) (txt : string)
    (fetch : ChatComposer.Request -> ChatComposer.Settled) :
  JS.all_white_space txt = true ->
  ChatComposer.requests (ChatComposer.send sel txt fetch) = []
  /\ ChatComposer.text (ChatComposer.send sel txt fetch) = txt
  /\ ChatComposer.console (ChatComposer.send sel txt fetch) = [].
Proof. intros H. by rewrite (send_guard_blank sel txt fetch H). Qed.

Lemma C7_blank_text_sends_nothing_witness :
  ChatComposer.requests
    (ChatComposer.send (Some "+15551234") "   "
       (answers (ChatComposer.Fulfilled 200))) = [].
Proof.
  apply (C7_blank_text_sends_nothing (Some "+15551234") "   "
           (answers (ChatComposer.Fulfilled 200))).
  reflexivity.
Defined.

(** C2, as the code has it: with a conversation selected and a text that
    is not blank, [send] issues one POST; when the promise of [fetch] is
    fulfilled -- a response arrived, whatever its status -- the input is
    cleared and nothing is logged; when it is rejected -- no response --
    the error is logged and the input keeps its text. *)
Theorem C2_send_clears_on_any_response
    (p txt : string) (fetch : ChatComposer.Request -> ChatComposer.Settled) :
  JS.truthy_string p = true ->
  JS.all_white_space txt = false ->
  let o := ChatComposer.send (Some p) txt fetch in
  ChatComposer.requests o = [ChatComposer.post p txt]
  /\ (forall status,
        fetch (ChatComposer.post p txt) = ChatComposer.Fulfilled status ->
        ChatComposer.text o = EmptyString /\ ChatComposer.console o = [])
  /\ (forall err,
        fetch (ChatComposer.post p txt) = ChatComposer.Rejected err ->
        ChatComposer.text o = txt
        /\ ChatComposer.console o = [("Failed to send message:", err)]).
Proof.
  intros Hp Ht o. subst o. rewrite (send_guard_passed p txt fetch Hp Ht).
  destruct (fetch (ChatComposer.post p txt)) as [st|err]; simpl;
    (split; [reflexivity|]); split; intros ? [= <-]; by split.
Qed.

Lemma C2_send_clears_on_any_response_witness :
  let o := ChatComposer.send (Some "+15551234") "hi"
             (answers (ChatComposer.Rejected "TypeError: Failed to fetch")) in
  ChatComposer.text o = "hi"
  /\ ChatComposer.console o =
     [("Failed to send message:", "TypeError: Failed to fetch")].
Proof.
  destruct (C2_send_clears_on_any_response "+15551234" "hi"
              (answers (ChatComposer.Rejected "TypeError: Failed to fetch"))
              eq_refl eq_refl) as (_ & _ & Hrej).
  exact (Hrej _ eq_refl).
Defined.

(** A response with status 500 is a failed request, and yet [send] clears
    the input and logs nothing. *)
Lemma C2_status_500_clears_input :
  let fetch := answers (ChatComposer.Fulfilled 500) in
  let o := ChatComposer.send (Some "+15551234") "hi" fetch in
  ~ (request_failed (fetch (ChatComposer.post "+15551234" "hi")) = true ->
     ChatComposer.text o = "hi" /\ ChatComposer.console o <> []).
Proof.
  intros fetch o H. destruct (H eq_refl) as [Htext _]. discriminate Htext.
Qed.

(** C10: for every send that passes the guard, the request body is the
    serialisation of [{ phone, text }] with the input text as typed: the
    trimmed text is used by the guard only, so a body is never the body
    of another text, in particular not of the trimmed one. *)
Theorem C10_body_carries_untrimmed_text
    (p txt : string) (fetch : ChatComposer.Request -> ChatComposer.Settled) :
  JS.truthy_string p = true ->
  JS.all_white_space txt = false ->
  let o := ChatComposer.send (Some p) txt fetch in
  (exists req,
      ChatComposer.requests o = [req]
      /\ ChatComposer.body req =
         JS.stringify (JS.JObject [("phone", JS.JString p);
                                   ("text", JS.JString txt)])
      /\ forall txt',
           ChatComposer.body req = ChatComposer.body (ChatComposer.post p txt') ->
           txt' = txt)
  /\ JS.field "text" [("phone", JS.JString p); ("text", JS.JString txt)]
     = Some (JS.JString txt).
Proof.
  intros Hp Ht o. split; [|reflexivity].
  exists (ChatComposer.post p txt). subst o.
  rewrite (send_guard_passed p txt fetch Hp Ht).
  split; [by destruct (fetch _)|].
  split; [reflexivity|].
  intros txt' H. symmetry. by apply (post_body_inj p).
Qed.

Lemma C10_body_carries_untrimmed_text_witness :
  let o := ChatComposer.send (Some "+15551234") " hi "
             (answers (ChatComposer.Fulfilled 200)) in
  exists req,
    ChatComposer.requests o = [req]
    /\ ChatComposer.body req =
       JS.stringify (JS.JObject [("phone", JS.JString "+15551234");
                                 ("text", JS.JString " hi ")])
    /\ ChatComposer.body req <>
       ChatComposer.body (ChatComposer.post "+15551234" (JS.trim " hi ")).
Proof.
  destruct (C10_body_carries_untrimmed_text "+15551234" " hi "
              (answers (ChatComposer.Fulfilled 200)) eq_refl eq_refl)
    as [(req & Hreq & Hbody & Hinj) _].
  exists req. split; [exact Hreq|]. split; [exact Hbody|].
  intros H. apply Hinj in H. discriminate H.
Defined.

(** ** The configuration module *)

Lemma init_unfold (env : gmap string string) :
  SupabaseClient.init env =
  let url := env !! "VITE_SUPABASE_URL" in
  let key := env !! "VITE_SUPABASE_KEY" in
  let reads := [SupabaseClient.ReadEnv "VITE_SUPABASE_URL";
                SupabaseClient.ReadEnv "VITE_SUPABASE_KEY"] in
  if negb (JS.truthy url)
  then (reads, inl "VITE_SUPABASE_URL is missing in your .env file")
  else if negb (JS.truthy key)
  then (reads, inl "VITE_SUPABASE_KEY is missing in your .env file")
  else
    let c := {| SupabaseClient.supabaseUrl := default EmptyString url;
                SupabaseClient.supabaseKey := default EmptyString key |} in
    (reads ++ [SupabaseClient.CreateClient c], inr c).
Proof.
  unfold SupabaseClient.init, SupabaseClient.bind, SupabaseClient.read_env.
  simpl.
  destruct (negb (JS.truthy (env !! "VITE_SUPABASE_URL"))); [reflexivity|].
  destruct (negb (JS.truthy (env !! "VITE_SUPABASE_KEY"))); reflexivity.
Qed.

(** C8: evaluating the configuration module reads each of the two
    credentials exactly once, the URL first; when either is absent the
    evaluation ends in a thrown error and no client has been created;
    when both are there and not empty, one client is created from them. *)
Theorem C8_config_fails_fast (env : gmap string string) :
  let ops := (SupabaseClient.init env).1 in
  let result := (SupabaseClient.init env).2 in
  SupabaseClient.reads ops = ["VITE_SUPABASE_URL"; "VITE_SUPABASE_KEY"]
  /\ (env !! "VITE_SUPABASE_URL" = None \/ env !! "VITE_SUPABASE_KEY" = None ->
      (exists msg, result = inl msg) /\ SupabaseClient.clients ops = [])
  /\ (forall u k,
        env !! "VITE_SUPABASE_URL" = Some u ->
        env !! "VITE_SUPABASE_KEY" = Some k ->
        JS.truthy_string u = true -> JS.truthy_string k = true ->
        let c := {| SupabaseClient.supabaseUrl := u;
                    SupabaseClient.supabaseKey := k |} in
        result = inr c /\ SupabaseClient.clients ops = [c]).
Proof.
  intros ops result. subst ops result. rewrite init_unfold.
  destruct (env !! "VITE_SUPABASE_URL") as [u|] eqn:Hu;
    destruct (env !! "VITE_SUPABASE_KEY") as [k|] eqn:Hk; simpl.
  - destruct (JS.truthy_string u) eqn:Htu; simpl;
      [destruct (JS.truthy_string k) eqn:Htk; simpl|].
    + split; [reflexivity|]. split; [intros [?|?]; discriminate|].
      intros ? ? [= <-] [= <-] _ _. by split.
    + split; [reflexivity|]. split; [intros [?|?]; discriminate|].
      intros ? ? [= <-] [= <-] _ ?. congruence.
    + split; [reflexivity|]. split; [intros [?|?]; discriminate|].
      intros ? ? [= <-] [= <-] ?. congruence.
  - destruct (JS.truthy_string u); simpl;
      (split; [reflexivity|]); (split; [eauto | intros; discriminate]).
  - split; [reflexivity|]. split; [eauto | intros; discriminate].
  - split; [reflexivity|]. split; [eauto | intros; discriminate].
Qed.

Lemma C8_config_fails_fast_witness :
  let env : gmap string string :=
    {[ "VITE_SUPABASE_URL" := "https://project.supabase.co" ]} in
  (exists msg, (SupabaseClient.init env).2 = inl msg)
  /\ SupabaseClient.clients (SupabaseClient.init env).1 = [].
Proof.
  intros env.
  apply (C8_config_fails_fast env).
  right. reflexivity.
Defined.

(** ** The request-forwarding handler *)

Lemma append_empty_r (a : string) : a +:+ EmptyString = a.
Proof. induction a as [|c a IH]; simpl; [reflexivity | by rewrite IH]. Qed.

(** Objects on the way down are distinct and on the heap, so there are
    no more of them than the heap has. *)
Lemma stack_bounded (heap : gmap nat Api.object) (stack : list nat) :
  NoDup stack -> (forall a, a ∈ stack -> is_Some (heap !! a)) ->
  (List.length stack <= size heap)%nat.
Proof.
  intros Hnd Hin.
  rewrite <- (size_list_to_set (C:=gset nat) stack Hnd), <- size_dom.
  apply subseteq_size. intros a Ha.
  apply elem_of_list_to_set in Ha. by apply elem_of_dom, Hin.
Qed.

Lemma stringify_value_fuel fuel heap stack v :
  NoDup stack -> (forall a, a ∈ stack -> is_Some (heap !! a)) ->
  (size heap < fuel + List.length stack)%nat ->
  Api.stringify_value fuel heap stack v <> Api.Exhausted.
Proof.
  revert stack v. induction fuel as [|fuel IH]; intros stack v Hnd Hin Hlt.
  - pose proof (stack_bounded heap stack Hnd Hin). simpl in Hlt. lia.
  - destruct v as [| |[]| | |a]; simpl; try discriminate.
    destruct (decide (a ∈ stack)) as [|Ha]; [discriminate|].
    destruct (heap !! a) as [[properties|items]|] eqn:Hh; [| |discriminate].
    + assert (Hsub : forall x, Api.stringify_value fuel heap (a :: stack) x
                               <> Api.Exhausted).
      { intros x. apply IH.
        - by constructor.
        - intros b [->|Hb]%elem_of_cons; [by rewrite Hh | by apply Hin].
        - simpl. lia. }
      clear Hh.
      match goal with
      | |- ?f properties true ?acc <> _ =>
          assert (H : forall l first s, f l first s <> Api.Exhausted);
            [|apply H]
      end.
      induction l as [|[k x] r IHr]; intros first acc; [discriminate|].
      specialize (Hsub x).
      destruct (Api.stringify_value fuel heap (a :: stack) x);
        [apply IHr | apply IHr | discriminate | contradiction].
    + assert (Hsub : forall x, Api.stringify_value fuel heap (a :: stack) x
                               <> Api.Exhausted).
      { intros x. apply IH.
        - by constructor.
        - intros b [->|Hb]%elem_of_cons; [by rewrite Hh | by apply Hin].
        - simpl. lia. }
      clear Hh.
      match goal with
      | |- ?f items true ?acc <> _ =>
          assert (H : forall l first s, f l first s <> Api.Exhausted);
            [|apply H]
      end.
      induction l as [|x r IHr]; intros first acc; [discriminate|].
      specialize (Hsub x).
      destruct (Api.stringify_value fuel heap (a :: stack) x);
        [apply IHr | apply IHr | discriminate | contradiction].
Qed.

(** [JSON_stringify] has fuel enough: it ends in a text, in nothing or
    in the [TypeError], for every heap and value. *)
Lemma JSON_stringify_has_fuel heap v :
  Api.JSON_stringify heap v <> Api.Exhausted.
Proof.
  unfold Api.JSON_stringify. apply stringify_value_fuel.
  - constructor.
  - intros a Ha. by apply elem_of_nil in Ha.
  - simpl. lia.
Qed.

(** Without listeners nothing happens to the handler any more. *)
Lemma deaf_handler_ignores toString h (es : list Api.ChildEvent) :
  Api.listening h = false -> foldl (Api.on_event toString) h es = h.
Proof.
  intros Hl. induction es as [|e es IH]; simpl; [reflexivity|].
  unfold Api.on_event at 2. by rewrite Hl.
Qed.

Lemma data_events_accumulate toString (h : Api.Handler)
    (chunks : list (list Byte.byte)) :
  Api.listening h = true ->
  foldl (Api.on_event toString) h (map Api.Data chunks) =
  {| Api.out := Api.out h +:+ concatenation (map toString chunks);
     Api.actions := Api.actions h;
     Api.listening := true; Api.thrown := Api.thrown h |}.
Proof.
  revert h. induction chunks as [|d chunks IH]; intros h Hl; simpl.
  - rewrite append_empty_r. destruct h; simpl in *. by subst.
  - unfold Api.on_event at 2. rewrite Hl, IH by reflexivity. simpl.
    by rewrite append_assoc.
Qed.

(** The handler when the envelope serialises: the sequence the handler
    is written for. *)
Lemma serve_serialisable toString script heap req env chunks code payload :
  Api.stringify_envelope heap req env = Api.Text payload ->
  Api.actions (Api.serve toString script heap req env chunks code)
  = [Api.Spawn "python3" [script] ["pipe"; "pipe"; "inherit"];
     Api.StdinWrite payload; Api.StdinEnd;
     Api.Respond (Api.status_of code) (concatenation (map toString chunks))]
  /\ Api.thrown (Api.serve toString script heap req env chunks code) = None.
Proof.
  intros Hp. unfold Api.serve, Api.handle. rewrite Hp.
  rewrite data_events_accumulate by reflexivity. by split.
Qed.

(** The handler when serialising the envelope throws. *)
Lemma serve_circular toString script heap req env chunks code :
  Api.stringify_envelope heap req env = Api.Circular ->
  Api.actions (Api.serve toString script heap req env chunks code)
  = [Api.Spawn "python3" [script] ["pipe"; "pipe"; "inherit"]]
  /\ Api.thrown (Api.serve toString script heap req env chunks code)
     = Some "TypeError: Converting circular structure to JSON".
Proof.
  intros Hp. unfold Api.serve, Api.handle. rewrite Hp.
  rewrite deaf_handler_ignores by reflexivity. by split.
Qed.

Example plain_request_served toString :
  Api.actions
    (Api.serve toString "/app/api/index.py" plain_heap (Api.VRef 0)
       [("HOME", "/root")] [] (Some 0))
  = [Api.Spawn "python3" ["/app/api/index.py"] ["pipe"; "pipe"; "inherit"];
     Api.StdinWrite
       (JS.stringify
          (JS.JObject
             [("req", JS.JObject
                        [("method", JS.JString "POST");
                         ("url", JS.JString "/send");
                         ("headers",
                          JS.JObject [("host", JS.JString "localhost")])]);
              ("env", JS.JObject [("HOME", JS.JString "/root")])]));
     Api.StdinEnd;
     Api.Respond 200 EmptyString].
Proof. reflexivity. Qed.

Lemma request_heap_circular env :
  Api.stringify_envelope request_heap (Api.VRef 0) env = Api.Circular.
Proof. reflexivity. Qed.

(** C5, at a request object as the server hands it over (the socket and
    its parser hold each other): the handler spawns the process and is
    then left by the [TypeError] of [JSON.stringify]; nothing is written
    to the child's standard input, the stream is not ended, and whatever
    the child writes and however it exits, no response is sent. *)
Theorem C5_circular_request_gets_no_response
    (toString : list Byte.byte -> string) (script : string)
    (env : list (string * string)) (chunks : list (list Byte.byte))
    (code : option Z) :
  let h := Api.serve toString script request_heap (Api.VRef 0) env chunks code in
  Api.actions h = [Api.Spawn "python3" [script] ["pipe"; "pipe"; "inherit"]]
  /\ Api.thrown h = Some "TypeError: Converting circular structure to JSON"
  /\ (forall status body, ~ In (Api.Respond status body) (Api.actions h)).
Proof.
  intros h. subst h.
  destruct (serve_circular toString script request_heap (Api.VRef 0) env
              chunks code (request_heap_circular env)) as [Ha Ht].
  rewrite Ha, Ht. split; [reflexivity|]. split; [reflexivity|].
  intros status body [H|[]]. discriminate H.
Qed.

(** ** The message thread *)

(** The server-side filter of the message subscription for [p] lets
    exactly the rows of [p] through. *)
Lemma delivers_insert_messages_subscription p (new : Message.t) :
  Backend.delivers_insert (App.messages_subscription p) new =
  String.eqb p (Message.phone new).
Proof.
  unfold Backend.delivers_insert, App.messages_subscription, Backend.passes.
  cbn [Backend.event Backend.table Backend.filter].
  rewrite !String.eqb_refl. cbn [andb].
  destruct (String.eqb_spec p (Message.phone new)) as [->|Hne].
  - apply String.eqb_refl.
  - apply String.eqb_neq. intros H. by apply append_inj_l in H.
Qed.

Lemma step_message_inserted s (new : Message.t) :
  channels_scoped s ->
  App.step s (App.MessageInserted new) =
  if decide (App.selectedPhone s = Some (Message.phone new)
             /\ JS.truthy (App.selectedPhone s) = true)
  then (App.setMessages (App.on_message_insert new (App.messages s)) s, [])
  else (s, []).
Proof.
  intros [_ Hm]. unfold App.step. rewrite Hm. case_decide as Hd.
  - destruct Hd as [Hsel Ht]. rewrite Hsel in Ht |- *. simpl in Ht.
    rewrite Ht, delivers_insert_messages_subscription, String.eqb_refl.
    reflexivity.
  - destruct (App.selectedPhone s) as [p|]; [|reflexivity].
    destruct (JS.truthy_string p) eqn:Hp; [|reflexivity].
    rewrite delivers_insert_messages_subscription.
    destruct (String.eqb_spec p (Message.phone new)) as [->|]; [|reflexivity].
    exfalso. apply Hd. by split.
Qed.

(** An INSERT for another conversation never reaches the list. *)
Lemma insert_for_other_phone_ignored s (new : Message.t) :
  channels_scoped s ->
  App.selectedPhone s <> Some (Message.phone new) ->
  App.step s (App.MessageInserted new) = (s, []).
Proof.
  intros Hs Hne. rewrite (step_message_inserted s new Hs).
  rewrite decide_False; [reflexivity|]. by intros [? _].
Qed.



Lemma eq_phone_scoped p rows :
  Forall (fun m => Message.phone m = p) (Backend.eq_phone p rows).
Proof.
  unfold Backend.eq_phone. apply List.Forall_forall. intros m Hm.
  apply filter_In in Hm as [_ Hm]. by apply String.eqb_eq.
Qed.

Lemma insert_by_Forall (P : Message.t -> Prop) asc m l :
  P m -> Forall P l -> Forall P (Backend.insert_by asc m l).
Proof.
  intros Hm. induction 1 as [|x l Hx Hl IH]; simpl.
  - by constructor.
  - destruct (if asc then _ else _); repeat constructor; assumption.
Qed.

Lemma order_created_at_Forall (P : Message.t -> Prop) asc rows :
  Forall P rows -> Forall P (Backend.order_created_at asc rows).
Proof.
  induction 1 as [|m rows Hm _ IH]; simpl; [constructor|].
  by apply insert_by_Forall.
Qed.

(** A successful answer to the message query for [p] has rows of [p] only. *)
Lemma select_messages_scoped stored p asc n rows :
  Backend.data (Backend.select_messages stored p asc n) = Some rows ->
  Forall (fun m => Message.phone m = p) rows.
Proof.
  simpl. intros [= <-]. apply Forall_take.
  apply order_created_at_Forall, eq_phone_scoped.
Qed.


Lemma select_not_null v s : App.selectedPhone (App.setSelectedPhone v s).1 <> None.
Proof.
  unfold App.setSelectedPhone.
  destruct (decide (App.selectedPhone s = Some v)) as [Hsel|Hne]; simpl.
  - by rewrite Hsel.
  - unfold App.messages_cleanup, App.messages_effect. simpl.
    destruct (App.messages_channel s); simpl;
      destruct (JS.truthy_string v); simpl; discriminate.
Qed.

Lemma idle_when_null_step s e :
  channels_scoped s -> idle_when_null s -> idle_when_null (App.step s e).1.
Proof.
  intros [_ Hm] Hidle. destruct e as [r|new|i|p r|new]; simpl.
  - destruct (App.loading_customers s); [|exact Hidle].
    destruct (Backend.error r); exact Hidle.
  - destruct (App.customers_channel s); [|exact Hidle].
    destruct (Backend.delivers_update _ _); exact Hidle.
  - destruct (App.conversations s !! i); [|exact Hidle].
    intros H. by apply select_not_null in H.
  - destruct (decide (p ∈ App.loading_messages s)) as [Hp|]; [|exact Hidle].
    destruct (Backend.error r); simpl; intros Hsel;
      destruct (Hidle Hsel) as [_ Hl]; rewrite Hl in Hp; by apply elem_of_nil in Hp.
  - destruct (App.messages_channel s) as [ch|] eqn:Hch; [|exact Hidle].
    destruct (Backend.delivers_insert ch new); [|exact Hidle].
    intros Hsel. simpl in Hsel. rewrite Hsel in Hm. discriminate.
Qed.

Lemma reachable_idle_when_null s : App.reachable s -> idle_when_null s.
Proof.
  induction 1 as [|s e Hs IH].
  - by split.
  - apply idle_when_null_step; [by apply reachable_channels_scoped | exact IH].
Qed.

Lemma thread_open_reachable rows stored :
  App.reachable (thread_open rows stored).
Proof. apply reachable_run, App.reachable_mount. Qed.

(** The selection never returns to [null]: a step that ends with nothing
    selected started with nothing selected and asked for no fetch and no
    subscription. *)
Lemma step_to_null s e :
  App.selectedPhone (App.step s e).1 = None ->
  App.selectedPhone s = None
  /\ Forall (fun x => App.is_fetch_or_subscribe x = false) (App.step s e).2.
Proof.
  destruct e as [r|new|i|p r|new]; simpl.
  - destruct (App.loading_customers s); [|by split].
    destruct (Backend.error r); simpl; intros H; split;
      repeat constructor; exact H.
  - destruct (App.customers_channel s); [|by split].
    destruct (Backend.delivers_update _ _); by split.
  - destruct (App.conversations s !! i) as [c|]; [|by split].
    intros H. by apply select_not_null in H.
  - destruct (decide (p ∈ App.loading_messages s)); [|by split].
    destruct (Backend.error r); simpl; intros H; split;
      repeat constructor; exact H.
  - destruct (App.messages_channel s) as [ch|]; [|by split].
    destruct (Backend.delivers_insert ch new); by split.
Qed.

(** C3: whenever the component comes to have no conversation selected --
    at the mount and after every step that ends with the selection
    [null] -- the message list is empty and is shown empty, and no fetch
    and no subscription for messages is issued: the mount issues the
    customer query and subscription only, such a step issues no fetch and
    no subscription at all, none is pending and no message channel is
    open. *)
Theorem C3_no_selection_empty_and_idle :
  (App.selectedPhone App.mount.1 = None
   /\ App.messages App.mount.1 = []
   /\ App.rendered App.mount.1 = []
   /\ Forall (fun x => is_message_fetch_or_subscribe x = false) App.mount.2)
  /\ forall (s : App.State) (e : App.Event),
       App.reachable s ->
       App.selectedPhone (App.step s e).1 = None ->
       App.messages (App.step s e).1 = []
       /\ App.rendered (App.step s e).1 = []
       /\ Forall (fun x => App.is_fetch_or_subscribe x = false) (App.step s e).2
       /\ App.loading_messages (App.step s e).1 = []
       /\ App.messages_channel (App.step s e).1 = None.
Proof.
  split; [by repeat split; repeat constructor|].
  intros s e Hs Hnull.
  assert (Hs' : App.reachable (App.step s e).1) by (by constructor).
  destruct (reachable_idle_when_null _ Hs' Hnull) as [Hm Hl].
  destruct (reachable_channels_scoped _ Hs') as [_ Hch].
  rewrite Hnull in Hch.
  destruct (step_to_null s e Hnull) as [_ Heff].
  unfold App.rendered. rewrite Hm. by repeat split.
Qed.

Lemma C3_no_selection_empty_and_idle_witness :
  let step := App.step App.mount.1 (customers_loaded [alice; bob]) in
  App.selectedPhone step.1 = None
  /\ App.messages step.1 = []
  /\ Forall (fun x => App.is_fetch_or_subscribe x = false) step.2.
Proof.
  intros step.
  destruct (proj2 C3_no_selection_empty_and_idle App.mount.1
              (customers_loaded [alice; bob]) App.reachable_mount eq_refl)
    as (Hm & _ & Heff & _).
  split; [reflexivity|]. split; [exact Hm | exact Heff].
Defined.

(** Mounting selects nothing, shows no message and issues the customer
    query and subscription only. *)
Lemma mount_selects_nothing :
  App.selectedPhone App.mount.1 = None
  /\ App.messages App.mount.1 = []
  /\ App.mount.2 = [App.customers_query; App.Subscribe App.customers_subscription].
Proof. by repeat split. Qed.




(** *** A click and the answer to its query *)

Lemma messages_loaded_answer p stored :
  messages_loaded p stored
  = App.MessagesLoaded p (Backend.select_messages stored p false 100).
Proof. reflexivity. Qed.

(** A click on a row with a non-empty key other than the selected one
    issues the message query for that key, which is then pending. *)
Lemma click_issues_query s i c :
  App.conversations s !! i = Some c ->
  JS.truthy_string (Customer.phone c) = true ->
  App.selectedPhone s <> Some (Customer.phone c) ->
  Hosted.issued (App.step s (App.Click i)).2
  = Some (Customer.phone c, App.messages_query (Customer.phone c))
  /\ Customer.phone c ∈ App.loading_messages (App.step s (App.Click i)).1.
Proof.
  intros Hi Ht Hsel. simpl. rewrite Hi. unfold App.setSelectedPhone.
  rewrite decide_False by exact Hsel.
  unfold App.messages_cleanup, App.messages_effect. simpl.
  destruct (App.messages_channel s); simpl; rewrite Ht; simpl;
    (split; [reflexivity|]); apply elem_of_app; right; left.
Qed.

Lemma click_and_load_loaded s i c stored :
  App.conversations s !! i = Some c ->
  JS.truthy_string (Customer.phone c) = true ->
  App.selectedPhone s <> Some (Customer.phone c) ->
  Hosted.click_and_load s i stored
  = (App.step (App.step s (App.Click i)).1
       (messages_loaded (Customer.phone c) stored)).1.
Proof.
  intros Hi Ht Hsel. unfold Hosted.click_and_load.
  destruct (click_issues_query s i c Hi Ht Hsel) as [-> _]. reflexivity.
Qed.

(** *** The worked example *)

Lemma thread_open_state stored :
  thread_open [alice; bob] stored =
  {| App.conversations := [alice; bob];
     App.selectedPhone := Some "+15551234";
     App.messages :=
       take 100 (Backend.order_created_at false
                   (Backend.eq_phone "+15551234" stored));
     App.customers_channel := Some App.customers_subscription;
     App.messages_channel := Some (App.messages_subscription "+15551234");
     App.loading_customers := false;
     App.loading_messages := [] |}.
Proof. reflexivity. Qed.

Lemma example_thread_fetched (t1 t2 : Z) stored :
  t1 < t2 -> stored ≡ₚ [hi t1; there t2] ->
  App.messages (thread_open [alice; bob] stored) = [there t2; hi t1].
Proof.
  intros Ht Hp. rewrite thread_open_state. simpl.
  symmetry in Hp. apply Permutation_length_2_inv in Hp as [-> | ->]; simpl.
  - destruct (Z.leb_spec t2 t1); [lia | reflexivity].
  - destruct (Z.leb_spec t1 t2); [reflexivity | lia].
Qed.

(** The callback puts a row at the head of the list, which the panel
    shows last: at the newest edge. *)
Lemma insert_lands_at_newest_edge s (new : Message.t) :
  App.reachable s ->
  App.selectedPhone s = Some (Message.phone new) ->
  JS.truthy (App.selectedPhone s) = true ->
  App.rendered (App.step s (App.MessageInserted new)).1 =
  App.rendered s ++ [Message.body new].
Proof.
  intros Hs Hsel Ht.
  rewrite (step_message_inserted s new (reachable_channels_scoped s Hs)).
  rewrite decide_True by (by split). reflexivity.
Qed.

Lemma insert_by_sorted asc m l :
  StronglySorted (in_order asc) l ->
  StronglySorted (in_order asc) (Backend.insert_by asc m l).
Proof.
  induction 1 as [|x l Hl IH Hx]; simpl.
  - repeat constructor.
  - destruct (if asc then _ else _) eqn:Hle.
    + constructor; [by constructor|].
      assert (Hmx : in_order asc m x).
      { unfold in_order. destruct asc; lia. }
      constructor; [exact Hmx|].
      eapply Forall_impl; [exact Hx|].
      unfold in_order in *. intros y Hy. destruct asc; lia.
    + constructor; [exact IH|].
      apply insert_by_Forall; [|exact Hx].
      unfold in_order. destruct asc; lia.
Qed.

Lemma order_created_at_sorted asc rows :
  StronglySorted (in_order asc) (Backend.order_created_at asc rows).
Proof.
  induction rows as [|m rows IH]; simpl; [constructor|].
  by apply insert_by_sorted.
Qed.

Lemma StronglySorted_take {A} (R : relation A) n l :
  StronglySorted R l -> StronglySorted R (take n l).
Proof.
  intros H. rewrite <- (take_drop n l) in H.
  by apply StronglySorted_app_1_l in H.
Qed.

Lemma StronglySorted_rev {A} (R : relation A) l :
  StronglySorted R l -> StronglySorted (flip R) (rev l).
Proof.
  induction 1 as [|x l Hl IH Hx]; simpl; [constructor|].
  apply StronglySorted_app. split; [|split; [exact IH | repeat constructor]].
  intros y Hy z Hz. apply list_elem_of_singleton in Hz as ->.
  unfold flip. rewrite List.Forall_forall in Hx. apply Hx.
  apply in_rev. by apply list_elem_of_In.
Qed.

(** A thread fetched newest first is shown oldest first. *)
Lemma loaded_thread_oldest_first s p stored :
  p ∈ App.loading_messages s ->
  StronglySorted Z.le
    (rendered_times (App.step s (messages_loaded p stored)).1).
Proof.
  intros Hp. unfold rendered_times, messages_loaded. simpl.
  rewrite decide_True by exact Hp. simpl.
  unfold App.top_to_bottom, App.flexDirection. simpl.
  rewrite <- map_rev.
  apply (StronglySorted_fmap Message.created_at (flip (in_order false)) Z.le).
  - intros a b Hab. exact Hab.
  - apply StronglySorted_rev, StronglySorted_take, order_created_at_sorted.
Qed.

Lemma example_thread_clicked stored :
  Hosted.click_and_load two_conversations 0 stored
  = thread_open [alice; bob] stored.
Proof. reflexivity. Qed.

(** A thread fetched by the query a click issued is shown oldest
    first. *)
Lemma clicked_thread_oldest_first s i c stored :
  App.conversations s !! i = Some c ->
  JS.truthy_string (Customer.phone c) = true ->
  App.selectedPhone s <> Some (Customer.phone c) ->
  StronglySorted Z.le (rendered_times (Hosted.click_and_load s i stored)).
Proof.
  intros Hi Ht Hsel. rewrite (click_and_load_loaded s i c stored Hi Ht Hsel).
  apply loaded_thread_oldest_first.
  by destruct (click_issues_query s i c Hi Ht Hsel) as [_ ?].
Qed.

(** C6: the first conversation is clicked and the backend answers the
    query the click issued, from stored messages "hi" at [t1] and "there"
    at [t2], [t1 < t2], in whatever order the store keeps them: the panel
    shows "hi" then "there" from oldest to newest; an INSERT event for
    the same phone with body "ok" then shows as the third, newest entry;
    an INSERT event for another phone changes nothing, before or after.
    In general: the thread fetched by the query of a click is shown
    oldest first, and an INSERT event for the selected conversation is
    shown after everything else, at the newest edge. *)
Theorem C6_example_thread_order :
  (forall (t1 t2 : Z) (stored : list Message.t) (new other : Message.t),
      t1 < t2 ->
      stored ≡ₚ [hi t1; there t2] ->
      Message.phone new = "+15551234" ->
      Message.body new = "ok" ->
      Message.phone other <> "+15551234" ->
      let s := Hosted.click_and_load two_conversations 0 stored in
      let s1 := (App.step s (App.MessageInserted new)).1 in
      App.rendered s = ["hi"; "there"]
      /\ App.rendered s1 = ["hi"; "there"; "ok"]
      /\ App.rendered (App.step s1 (App.MessageInserted other)).1
         = App.rendered s1
      /\ App.rendered (App.step s (App.MessageInserted other)).1
         = App.rendered s)
  /\ (forall s i c stored,
        App.conversations s !! i = Some c ->
        JS.truthy_string (Customer.phone c) = true ->
        App.selectedPhone s <> Some (Customer.phone c) ->
        StronglySorted Z.le
          (rendered_times (Hosted.click_and_load s i stored)))
  /\ (forall s (new : Message.t),
        App.reachable s ->
        App.selectedPhone s = Some (Message.phone new) ->
        JS.truthy (App.selectedPhone s) = true ->
        App.rendered (App.step s (App.MessageInserted new)).1
        = App.rendered s ++ [Message.body new]).
Proof.
  split; [|split; [apply clicked_thread_oldest_first
                  | apply insert_lands_at_newest_edge]].
  intros t1 t2 stored new other Ht Hp Hnew Hbody Hother s s1.
  subst s1 s. rewrite example_thread_clicked.
  set (s := thread_open [alice; bob] stored).
  set (s1 := (App.step s (App.MessageInserted new)).1).
  assert (Hs : App.reachable s) by apply thread_open_reachable.
  assert (Hs1 : App.reachable s1) by (by constructor).
  assert (Hsel : App.selectedPhone s = Some "+15551234") by reflexivity.
  assert (Hr : App.rendered s = ["hi"; "there"]).
  { unfold App.rendered. subst s.
    rewrite (example_thread_fetched t1 t2 stored Ht Hp). reflexivity. }
  assert (Hr1 : App.rendered s1 = ["hi"; "there"; "ok"]).
  { subst s1. rewrite insert_lands_at_newest_edge.
    - by rewrite Hr, Hbody.
    - exact Hs.
    - by rewrite Hnew.
    - reflexivity. }
  assert (Hsel1 : App.selectedPhone s1 = Some "+15551234").
  { subst s1.
    rewrite (step_message_inserted s new (reachable_channels_scoped s Hs)).
    by case_decide. }
  split; [exact Hr|]. split; [exact Hr1|]. split.
  - rewrite insert_for_other_phone_ignored; [reflexivity| |].
    + by apply reachable_channels_scoped.
    + rewrite Hsel1. congruence.
  - rewrite insert_for_other_phone_ignored; [reflexivity| |].
    + by apply reachable_channels_scoped.
    + rewrite Hsel. congruence.
Qed.

Lemma C6_example_thread_order_witness :
  let s := Hosted.click_and_load two_conversations 0 [there 20; hi 10] in
  let s1 := (App.step s (App.MessageInserted (ok_message 30))).1 in
  App.rendered s = ["hi"; "there"]
  /\ App.rendered s1 = ["hi"; "there"; "ok"]
  /\ App.rendered (App.step s1 (App.MessageInserted (stray 40))).1
     = App.rendered s1
  /\ App.rendered (App.step s (App.MessageInserted (stray 40))).1
     = App.rendered s.
Proof.
  apply (proj1 C6_example_thread_order 10 20 [there 20; hi 10]
           (ok_message 30) (stray 40)).
  - lia.
  - apply Permutation_swap.
  - reflexivity.
  - reflexivity.
  - discriminate.
Defined.

(** * More properties *)

(** ** Subscriptions are torn down *)

Lemma setSelectedPhone_frame v s :
  App.conversations (App.setSelectedPhone v s).1 = App.conversations s
  /\ App.messages (App.setSelectedPhone v s).1 = App.messages s
  /\ App.loading_customers (App.setSelectedPhone v s).1 = App.loading_customers s
  /\ App.selectedPhone (App.setSelectedPhone v s).1 = Some v.
Proof.
  unfold App.setSelectedPhone.
  destruct (decide (App.selectedPhone s = Some v)) as [Hsel|Hne]; [by repeat split|].
  unfold App.messages_cleanup, App.messages_effect. simpl.
  destruct (App.messages_channel s); simpl;
    destruct (JS.truthy_string v); simpl; by repeat split.
Qed.

Lemma customers_not_messages_subscription p :
  App.customers_subscription <> App.messages_subscription p.
Proof. discriminate. Qed.

Lemma held_setSelectedPhone v s :
  channels_scoped s ->
  foldl Realtime.apply
    (App.customers_subscription :: option_list (App.messages_channel s))
    (App.setSelectedPhone v s).2
  = App.customers_subscription
    :: option_list (App.messages_channel (App.setSelectedPhone v s).1).
Proof.
  intros [_ Hm]. unfold App.setSelectedPhone.
  destruct (decide (App.selectedPhone s = Some v)) as [Hsel|Hne]; [reflexivity|].
  unfold App.messages_cleanup, App.messages_effect. simpl.
  destruct (App.messages_channel s) as [ch|] eqn:Hch; simpl.
  - assert (Hch' : exists p, ch = App.messages_subscription p).
    { destruct (App.selectedPhone s) as [p|]; [|discriminate].
      destruct (JS.truthy_string p); [|discriminate].
      exists p. congruence. }
    destruct Hch' as [p ->].
    destruct (JS.truthy_string v) eqn:Hv; simpl; rewrite ?Hv; simpl;
      try rewrite decide_False by apply customers_not_messages_subscription;
      rewrite decide_True by reflexivity; reflexivity.
  - destruct (JS.truthy_string v) eqn:Hv; simpl; rewrite ?Hv, ?Hch; reflexivity.
Qed.

Lemma held_step s e :
  channels_scoped s ->
  foldl Realtime.apply
    (App.customers_subscription :: option_list (App.messages_channel s))
    (App.step s e).2
  = App.customers_subscription
    :: option_list (App.messages_channel (App.step s e).1).
Proof.
  intros Hs. destruct e as [r|new|i|p r|new]; simpl.
  - destruct (App.loading_customers s); [|reflexivity].
    destruct (Backend.error r); reflexivity.
  - destruct (App.customers_channel s); [|reflexivity].
    destruct (Backend.delivers_update _ _); reflexivity.
  - destruct (App.conversations s !! i); [|reflexivity].
    by apply held_setSelectedPhone.
  - destruct (decide (p ∈ App.loading_messages s)); [|reflexivity].
    destruct (Backend.error r); reflexivity.
  - destruct (App.messages_channel s) as [ch|] eqn:Hch; [|simpl; by rewrite Hch].
    destruct (Backend.delivers_insert ch new); simpl; by rewrite ?Hch.
Qed.

Lemma held_run es s :
  channels_scoped s ->
  foldl Realtime.apply
    (App.customers_subscription :: option_list (App.messages_channel s))
    (Realtime.effects_of s es)
  = App.customers_subscription
    :: option_list (App.messages_channel (App.run s es)).
Proof.
  revert s. induction es as [|e es IH]; intros s Hs; simpl; [reflexivity|].
  rewrite foldl_app, (held_step s e Hs).
  apply IH. by apply channels_scoped_step.
Qed.

(** X1: whatever happens after the mount, the channels the client holds
    are the customer channel and, when a conversation is selected, the
    one message channel of that conversation: every earlier message
    channel has been removed. *)
Theorem X1_one_message_channel_held (es : list App.Event) :
  Realtime.held_after (Realtime.session_effects es)
  = App.customers_subscription
    :: match App.selectedPhone (Realtime.session_state es) with
       | Some p => if JS.truthy_string p
                   then [App.messages_subscription p] else []
       | None => []
       end.
Proof.
  unfold Realtime.held_after, Realtime.session_effects, Realtime.session_state.
  rewrite foldl_app.
  change (foldl Realtime.apply [] App.mount.2)
    with (App.customers_subscription
            :: option_list (App.messages_channel App.mount.1)).
  rewrite held_run by apply (reachable_channels_scoped _ App.reachable_mount).
  f_equal.
  destruct (reachable_channels_scoped (App.run App.mount.1 es)) as [_ ->].
  - apply reachable_run, App.reachable_mount.
  - destruct (App.selectedPhone _) as [p|]; [|reflexivity].
    by destruct (JS.truthy_string p).
Qed.

(** ** The conversation list after its load *)

Lemma step_keeps_keys s e :
  App.loading_customers s = false ->
  map Customer.phone (App.conversations (App.step s e).1)
  = map Customer.phone (App.conversations s)
  /\ App.loading_customers (App.step s e).1 = false.
Proof.
  intros Hl. destruct e as [r|new|i|p r|new]; simpl.
  - by rewrite Hl.
  - destruct (App.customers_channel s); [|by split].
    destruct (Backend.delivers_update _ _); [|by split].
    simpl. split; [apply on_customer_update_phones | exact Hl].
  - destruct (App.conversations s !! i) as [c|]; [|by split].
    destruct (setSelectedPhone_frame (Customer.phone c) s) as (-> & _ & -> & _).
    by split.
  - destruct (decide (p ∈ App.loading_messages s)); [|by split].
    destruct (Backend.error r); by split.
  - destruct (App.messages_channel s) as [ch|]; [|by split].
    destruct (Backend.delivers_insert ch new); by split.
Qed.

(** X2: once the customer query has been answered, no event adds,
    removes or reorders a conversation: the keys of the list stay what
    they are through every later update, click, fetch answer and
    insert. *)
Theorem X2_conversation_keys_frozen (s : App.State) (es : list App.Event) :
  App.loading_customers s = false ->
  map Customer.phone (App.conversations (App.run s es))
  = map Customer.phone (App.conversations s).
Proof.
  revert s. induction es as [|e es IH]; intros s Hl; simpl; [reflexivity|].
  destruct (step_keeps_keys s e Hl) as [Hk Hl'].
  rewrite IH by exact Hl'. exact Hk.
Qed.

Lemma X2_conversation_keys_frozen_witness :
  map Customer.phone
    (App.conversations
       (App.run two_conversations
          [App.CustomerUpdated carol; App.CustomerUpdated bob_seen;
           App.Click 1; customers_loaded [carol]]))
  = ["+15551234"; "+15559999"].
Proof.
  rewrite (X2_conversation_keys_frozen two_conversations); reflexivity.
Defined.

(** ** Failed loads *)

(** X3: a failed answer to either query changes nothing that is shown,
    whatever [data] it carries, and writes one line to the console when
    the query was pending; so a click followed by the failure of its
    fetch leaves the thread shown before the click in view. *)
Theorem X3_failed_load_changes_nothing (s : App.State) (err : string) :
  (forall d,
      let r := {| Backend.data := d; Backend.error := Some err |} in
      let s' := (App.step s (App.CustomersLoaded r)).1 in
      App.conversations s' = App.conversations s
      /\ App.selectedPhone s' = App.selectedPhone s
      /\ App.messages s' = App.messages s
      /\ (App.step s (App.CustomersLoaded r)).2
         = if App.loading_customers s
           then [App.ConsoleError "Error loading customers:" err] else [])
  /\ (forall p d,
        let r := {| Backend.data := d; Backend.error := Some err |} in
        let s' := (App.step s (App.MessagesLoaded p r)).1 in
        App.conversations s' = App.conversations s
        /\ App.selectedPhone s' = App.selectedPhone s
        /\ App.messages s' = App.messages s
        /\ (App.step s (App.MessagesLoaded p r)).2
           = if decide (p ∈ App.loading_messages s)
             then [App.ConsoleError "Error loading messages:" err] else [])
  /\ (forall i c d,
        App.conversations s !! i = Some c ->
        let r := {| Backend.data := d; Backend.error := Some err |} in
        App.messages
          (App.run s [App.Click i; App.MessagesLoaded (Customer.phone c) r])
        = App.messages s).
Proof.
  split; [|split].
  - intros d r s'. subst r s'. simpl.
    by destruct (App.loading_customers s).
  - intros p d r s'. subst r s'. simpl.
    by destruct (decide (p ∈ App.loading_messages s)).
  - intros i c d Hi r. subst r. simpl. rewrite Hi.
    destruct (setSelectedPhone_frame (Customer.phone c) s) as (_ & Hm & _).
    destruct (decide (_ ∈ _)); simpl; exact Hm.
Qed.

Lemma X3_failed_load_changes_nothing_witness :
  let s := thread_open [alice; bob] [hi 1; there 2] in
  App.messages
    (App.run s [App.Click 1; App.MessagesLoaded "+15559999" (failed "timeout")])
  = [there 2; hi 1]
  /\ App.selectedPhone
       (App.run s [App.Click 1; App.MessagesLoaded "+15559999" (failed "timeout")])
     = Some "+15559999".
Proof.
  intros s. split; [|reflexivity].
  destruct (X3_failed_load_changes_nothing s "timeout") as (_ & _ & H).
  etrans; [exact (H 1%nat bob None eq_refl) | reflexivity].
Defined.

(** ** Inserts pile up at the newest edge *)

Lemma panel_bottom_up {A} (children : list A) :
  App.top_to_bottom App.flexDirection children = rev children.
Proof. reflexivity. Qed.

Lemma run_inserts s p (news : list Message.t) :
  channels_scoped s ->
  App.selectedPhone s = Some p -> JS.truthy_string p = true ->
  Forall (fun m => Message.phone m = p) news ->
  App.messages (App.run s (map App.MessageInserted news))
  = rev news ++ App.messages s.
Proof.
  intros Hs Hsel Hp Hnews. revert s Hs Hsel.
  induction Hnews as [|new news Hnew _ IH]; intros s Hs Hsel;
    [reflexivity|].
  assert (Hstep : App.step s (App.MessageInserted new)
                  = (App.setMessages (new :: App.messages s) s, [])).
  { rewrite (step_message_inserted s new Hs).
    rewrite decide_True; [reflexivity|].
    split; [congruence | by rewrite Hsel]. }
  change (App.run s (map App.MessageInserted (new :: news)))
    with (App.run (App.step s (App.MessageInserted new)).1
            (map App.MessageInserted news)).
  rewrite IH.
  - rewrite Hstep. simpl. by rewrite <- app_assoc.
  - by apply channels_scoped_step.
  - by rewrite Hstep.
Qed.

(** X4: with a conversation selected, INSERT events for it are put in
    front of the list one by one, so the panel shows them below
    everything else in the order they arrived; nothing bounds the list,
    it grows by one with every event. *)
Theorem X4_inserts_arrive_in_order
    (s : App.State) (p : string) (news : list Message.t) :
  App.reachable s ->
  App.selectedPhone s = Some p ->
  JS.truthy_string p = true ->
  Forall (fun m => Message.phone m = p) news ->
  let s' := App.run s (map App.MessageInserted news) in
  App.messages s' = rev news ++ App.messages s
  /\ App.rendered s' = App.rendered s ++ map Message.body news
  /\ List.length (App.messages s')
     = (List.length (App.messages s) + List.length news)%nat.
Proof.
  intros Hs Hsel Hp Hnews s'. subst s'.
  pose proof (run_inserts s p news (reachable_channels_scoped s Hs)
                Hsel Hp Hnews) as Hm.
  split; [exact Hm|]. split.
  - unfold App.rendered. rewrite Hm, !panel_bottom_up.
    rewrite map_app, rev_app_distr, map_rev, rev_involutive. reflexivity.
  - rewrite Hm, length_app, length_rev. lia.
Qed.

Lemma X4_inserts_arrive_in_order_witness :
  App.rendered
    (App.run (thread_open [alice; bob] [hi 1; there 2])
       (map App.MessageInserted [ok_message 3; ok_message 4]))
  = ["hi"; "there"; "ok"; "ok"].
Proof.
  destruct (X4_inserts_arrive_in_order
              (thread_open [alice; bob] [hi 1; there 2]) "+15551234"
              [ok_message 3; ok_message 4]
              (thread_open_reachable _ _) eq_refl eq_refl
              ltac:(repeat constructor)) as (_ & Hr & _).
  rewrite Hr. reflexivity.
Defined.

(** ** What a fetch brings into view *)

Lemma insert_by_perm asc m l : Backend.insert_by asc m l ≡ₚ m :: l.
Proof.
  induction l as [|x l IH]; simpl; [reflexivity|].
  destruct (if asc then _ else _); [reflexivity|].
  rewrite IH. apply Permutation_swap.
Qed.

Lemma order_created_at_perm asc rows :
  Backend.order_created_at asc rows ≡ₚ rows.
Proof.
  induction rows as [|m rows IH]; simpl; [reflexivity|].
  by rewrite insert_by_perm, IH.
Qed.

(** The rows a query with a limit answers with, against the rows it
    leaves out. *)
Lemma select_messages_split stored p asc n rows :
  Backend.data (Backend.select_messages stored p asc n) = Some rows ->
  List.length rows = Nat.min n (List.length (Backend.eq_phone p stored))
  /\ exists rest,
       rows ++ rest ≡ₚ Backend.eq_phone p stored
       /\ Forall (fun k => Forall (fun m => in_order asc k m) rest) rows.
Proof.
  simpl. intros [= <-].
  set (sorted := Backend.order_created_at asc (Backend.eq_phone p stored)).
  split.
  - rewrite length_take. unfold sorted.
    by rewrite (Permutation_length (order_created_at_perm asc _)).
  - exists (drop n sorted). split.
    + rewrite take_drop. apply order_created_at_perm.
    + pose proof (order_created_at_sorted asc (Backend.eq_phone p stored)) as Hs.
      fold sorted in Hs. rewrite <- (take_drop n sorted) in Hs.
      apply StronglySorted_app in Hs as (Hcross & _ & _).
      apply List.Forall_forall. intros k Hk.
      apply List.Forall_forall. intros m Hm.
      apply Hcross; by apply list_elem_of_In.
Qed.

(** X5: when a click has moved the selection to a conversation and the
    backend answers the query that click issued, at most 100 rows come
    into view, all of them stored rows of that conversation, and they
    are the newest ones: every stored row of the conversation that is
    left out is no newer than any row in view.  A conversation of at
    most 100 rows is in view whole. *)
Theorem X5_fetch_keeps_newest_hundred
    (s : App.State) (i : nat) (c : Customer.t) (stored : list Message.t) :
  App.conversations s !! i = Some c ->
  JS.truthy_string (Customer.phone c) = true ->
  App.selectedPhone s <> Some (Customer.phone c) ->
  let thread := Backend.eq_phone (Customer.phone c) stored in
  let msgs := App.messages (Hosted.click_and_load s i stored) in
  List.length msgs = Nat.min 100 (List.length thread)
  /\ exists rest,
       msgs ++ rest ≡ₚ thread
       /\ Forall (fun k =>
                    Forall (fun m => Message.created_at m <= Message.created_at k)
                           rest) msgs.
Proof.
  intros Hi Ht Hsel thread msgs. subst thread msgs.
  rewrite (click_and_load_loaded s i c stored Hi Ht Hsel).
  destruct (click_issues_query s i c Hi Ht Hsel) as [_ Hp].
  rewrite messages_loaded_answer.
  assert (Hm : App.messages
                 (App.step (App.step s (App.Click i)).1
                    (App.MessagesLoaded (Customer.phone c)
                       (Backend.select_messages stored (Customer.phone c)
                          false 100))).1
               = take 100 (Backend.order_created_at false
                             (Backend.eq_phone (Customer.phone c) stored))).
  { unfold App.step at 1. by rewrite decide_True. }
  rewrite Hm.
  apply (select_messages_split stored (Customer.phone c) false 100).
  reflexivity.
Qed.

Lemma X5_fetch_keeps_newest_hundred_witness :
  let msgs :=
    App.messages
      (Hosted.click_and_load two_conversations 0 [hi 1; stray 2; there 3]) in
  List.length msgs = 2%nat
  /\ exists rest, msgs ++ rest ≡ₚ [hi 1; there 3].
Proof.
  intros msgs.
  destruct (X5_fetch_keeps_newest_hundred two_conversations 0 alice
              [hi 1; stray 2; there 3] eq_refl eq_refl ltac:(discriminate))
    as (Hlen & rest & Hperm & _).
  split; [exact Hlen | by exists rest].
Defined.

(** ** Answers that come late *)

Lemma select_messages_nonempty stored p asc :
  Backend.eq_phone p stored <> [] ->
  exists m rows,
    Backend.data (Backend.select_messages stored p asc 100) = Some (m :: rows)
    /\ Message.phone m = p.
Proof.
  intros Hne. simpl.
  destruct (take 100 _) as [|m rows] eqn:Ht.
  - exfalso. apply (f_equal List.length) in Ht.
    rewrite length_take in Ht.
    rewrite (Permutation_length (order_created_at_perm asc _)) in Ht.
    destruct (Backend.eq_phone p stored); [congruence | simpl in Ht; lia].
  - exists m, rows. split; [reflexivity|].
    assert (H : Forall (fun m => Message.phone m = p) (m :: rows)).
    { rewrite <- Ht. apply Forall_take, order_created_at_Forall, eq_phone_scoped. }
    by apply Forall_inv in H.
Qed.

(** X6: the answer to a fetch issued for an earlier selection is applied
    like any other: when it arrives after the selection has moved on and
    carries rows, the list in view is replaced by the earlier
    conversation's rows while the selection stays where it is. *)
Theorem X6_late_answer_replaces_view
    (s : App.State) (p : string) (stored : list Message.t) :
  p ∈ App.loading_messages s ->
  App.selectedPhone s <> Some p ->
  Backend.eq_phone p stored <> [] ->
  let s' := (App.step s (messages_loaded p stored)).1 in
  App.selectedPhone s' = App.selectedPhone s
  /\ App.messages s' <> []
  /\ Forall (fun m => Message.phone m = p) (App.messages s')
  /\ ~ App.in_view_scoped s'.
Proof.
  intros Hp Hsel Hne s'. subst s'. rewrite messages_loaded_answer.
  destruct (select_messages_nonempty stored p false Hne) as (m & rows & Hd & Hm).
  pose proof (select_messages_scoped stored p false 100 _ Hd) as Hall.
  unfold App.step. rewrite decide_True by exact Hp.
  change (Backend.error (Backend.select_messages stored p false 100)) with (@None string).
  cbv iota. rewrite Hd. simpl.
  split; [reflexivity|]. split; [discriminate|]. split; [exact Hall|].
  intros Hv. apply Forall_inv in Hv. simpl in Hv. congruence.
Qed.

Lemma X6_late_answer_replaces_view_witness :
  App.reachable both_loading
  /\ App.selectedPhone
       (App.step both_loading (messages_loaded "+15551234" [hi 1])).1
     = Some "+15559999"
  /\ App.messages
       (App.step both_loading (messages_loaded "+15551234" [hi 1])).1 <> [].
Proof.
  split; [apply reachable_run, App.reachable_mount|].
  destruct (X6_late_answer_replaces_view both_loading "+15551234" [hi 1])
    as (Hsel & Hne & _).
  - vm_compute. left.
  - discriminate.
  - discriminate.
  - split; [by rewrite Hsel | exact Hne].
Defined.

(** ** What is rendered *)



(** X8: the placeholder of the input asks to select a conversation
    exactly when [send] would issue no request whatever the text and the
    network. *)
Theorem X8_placeholder_agrees_with_guard (sel : option string) :
  View.placeholder sel = "Select a conversation"
  <-> forall txt fetch,
        ChatComposer.requests (ChatComposer.send sel txt fetch) = [].
Proof.
  unfold View.placeholder. split.
  - destruct (JS.truthy sel) eqn:Hsel; [discriminate|].
    intros _ txt fetch. unfold ChatComposer.send. by rewrite Hsel.
  - intros H. destruct (JS.truthy sel) eqn:Hsel; [|reflexivity].
    destruct sel as [p|]; [|discriminate].
    specialize (H "x" (answers (ChatComposer.Fulfilled 200))).
    rewrite send_guard_passed in H by (exact Hsel || reflexivity).
    discriminate H.
Qed.

(** ** The configuration module, empty values *)

(** X9: a credential that is present but empty is refused like a missing
    one.  The URL is checked first: when it is missing or empty the error
    names the URL, whatever the key; the error names the key only when
    the URL is good.  [createClient] is called exactly when both are
    there and not empty, once and with these two values, and not at all
    when one of the two errors is thrown. *)
Theorem X9_empty_credential_refused (env : gmap string string) :
  let url := env !! "VITE_SUPABASE_URL" in
  let key := env !! "VITE_SUPABASE_KEY" in
  let ops := (SupabaseClient.init env).1 in
  let result := (SupabaseClient.init env).2 in
  (JS.truthy url = false ->
   result = inl "VITE_SUPABASE_URL is missing in your .env file"
   /\ SupabaseClient.clients ops = [])
  /\ (JS.truthy url = true -> JS.truthy key = false ->
      result = inl "VITE_SUPABASE_KEY is missing in your .env file"
      /\ SupabaseClient.clients ops = [])
  /\ (forall u k, url = Some u -> key = Some k ->
        JS.truthy_string u = true -> JS.truthy_string k = true ->
        SupabaseClient.clients ops
        = [{| SupabaseClient.supabaseUrl := u;
              SupabaseClient.supabaseKey := k |}])
  /\ (SupabaseClient.clients ops <> [] ->
      JS.truthy url = true /\ JS.truthy key = true).
Proof.
  intros url key ops result. subst url key ops result. rewrite init_unfold.
  simpl.
  destruct (env !! "VITE_SUPABASE_URL") as [u|] eqn:Hu;
    destruct (env !! "VITE_SUPABASE_KEY") as [k|] eqn:Hk; simpl;
    try destruct (JS.truthy_string u) eqn:Htu;
    try destruct (JS.truthy_string k) eqn:Htk; simpl;
    (split; [intros; (by split) || discriminate|]);
    (split; [intros; (by split) || discriminate|]);
    (split; [intros ? ? [= <-] [= <-]; intros; congruence
                || (intros; discriminate)|]);
    intros H; (by split) || (by destruct H).
Qed.

Lemma X9_empty_credential_refused_witness :
  let env : gmap string string :=
    {[ "VITE_SUPABASE_URL" := EmptyString; "VITE_SUPABASE_KEY" := "anon-key" ]} in
  (SupabaseClient.init env).2
  = inl "VITE_SUPABASE_URL is missing in your .env file"
  /\ SupabaseClient.clients (SupabaseClient.init env).1 = [].
Proof.
  intros env.
  apply (X9_empty_credential_refused env).
  reflexivity.
Defined.

(** ** The two composers *)

(** X10: the composer without [try]/[catch] and the one with it issue
    the same requests and leave the same text for every selection, text
    and network; they differ in what becomes of a rejection only: the
    earlier one lets it out of [send], the later one logs it. *)
Theorem X10_composers_agree
    (sel : option string) (txt : string)
    (fetch : ChatComposer.Request -> ChatComposer.Settled) :
  let before := ChatComposerUncaught.send sel txt fetch in
  let after := ChatComposer.send sel txt fetch in
  ChatComposerUncaught.requests before = ChatComposer.requests after
  /\ ChatComposerUncaught.text before = ChatComposer.text after
  /\ ChatComposer.console after
     = match ChatComposerUncaught.rejection before with
       | Some err => [("Failed to send message:", err)]
       | None => []
       end.
Proof.
  intros before after. subst before after.
  unfold ChatComposerUncaught.send, ChatComposer.send.
  destruct (negb (JS.truthy sel) || negb (JS.truthy_string (JS.trim txt)));
    [by repeat split|].
  destruct sel as [p|]; [|by repeat split].
  destruct (fetch (ChatComposer.post p txt)); by repeat split.
Qed.

(** ** The earlier [App] *)

Lemma reloading_setSelected_subscription v s :
  AppReloading.subscription s = Some (AppReloading.selected s) ->
  AppReloading.subscription (AppReloading.setSelected v s).1
  = Some (AppReloading.selected (AppReloading.setSelected v s).1).
Proof.
  intros Hs. unfold AppReloading.setSelected.
  destruct (decide (AppReloading.selected s = Some v)); [exact Hs|].
  unfold AppReloading.subscribe_cleanup, AppReloading.subscribe_effect,
    AppReloading.messages_effect. simpl.
  destruct (AppReloading.subscription s); simpl;
    destruct (JS.truthy_string v); reflexivity.
Qed.

Lemma reloading_subscription_current s :
  AppReloading.reachable s ->
  AppReloading.subscription s = Some (AppReloading.selected s).
Proof.
  induction 1 as [|s e _ IH]; [reflexivity|].
  destruct e as [r|i|p r|new]; simpl.
  - by destruct (AppReloading.loading_customers s).
  - destruct (AppReloading.conversations s !! i); [|exact IH].
    by apply reloading_setSelected_subscription.
  - by destruct (decide (p ∈ AppReloading.loading_messages s)).
  - by rewrite IH.
Qed.

Lemma reloading_reachable_run s es :
  AppReloading.reachable s -> AppReloading.reachable (AppReloading.run s es).
Proof.
  revert s. induction es as [|e es IH]; intros s Hs; simpl; [exact Hs|].
  apply IH. by constructor.
Qed.

(** X11: in the earlier [App] the INSERT callback always compares with
    the selection of the moment, because the subscription is renewed with
    every change of it: at every reachable state an INSERT event is put
    in front of the list when its phone is the selected key, and changes
    nothing otherwise; the selection is never touched. *)
Theorem X11_unfiltered_callback_is_current
    (s : AppReloading.State) (new : Message.t) :
  AppReloading.reachable s ->
  let s' := (AppReloading.step s (AppReloading.MessageInserted new)).1 in
  AppReloading.messages s'
  = (if decide (Some (Message.phone new) = AppReloading.selected s)
     then new :: AppReloading.messages s else AppReloading.messages s)
  /\ AppReloading.selected s' = AppReloading.selected s
  /\ AppReloading.conversations s' = AppReloading.conversations s.
Proof.
  intros Hs s'. subst s'. simpl.
  rewrite (reloading_subscription_current s Hs). simpl.
  by repeat split.
Qed.

(** With no conversation listed and no customers query pending, nothing
    that happens changes the list or the selection. *)
Lemma reloading_stuck_step s e :
  AppReloading.conversations s = [] ->
  AppReloading.loading_customers s = 0%nat ->
  AppReloading.conversations (AppReloading.step s e).1 = []
  /\ AppReloading.loading_customers (AppReloading.step s e).1 = 0%nat
  /\ AppReloading.selected (AppReloading.step s e).1 = AppReloading.selected s.
Proof.
  intros Hc Hl. destruct e as [r|i|p r|new]; simpl.
  - by rewrite Hl.
  - by rewrite Hc.
  - by destruct (decide (p ∈ AppReloading.loading_messages s)).
  - by destruct (AppReloading.subscription s).
Qed.

Lemma reloading_stuck_run es s :
  AppReloading.conversations s = [] ->
  AppReloading.loading_customers s = 0%nat ->
  AppReloading.conversations (AppReloading.run s es) = []
  /\ AppReloading.selected (AppReloading.run s es) = AppReloading.selected s.
Proof.
  revert s. induction es as [|e es IH]; intros s Hc Hl; simpl; [by split|].
  destruct (reloading_stuck_step s e Hc Hl) as (Hc' & Hl' & Hs').
  destruct (IH _ Hc' Hl') as [? ?]. split; congruence.
Qed.

(** X12: in the earlier [App] every change of the selection asks for the
    customers again, and the answer is taken without a look at [error].
    When no other customers query is pending and that query fails
    ([data] is null), the conversation list becomes empty and stays
    empty whatever happens afterwards, and the selection stays where the
    click put it: no row is left to click. *)
Theorem X12_failed_reload_empties_list
    (s : AppReloading.State) (i : nat) (c : Customer.t)
    (r : Backend.Response (list Customer.t)) :
  AppReloading.conversations s !! i = Some c ->
  AppReloading.selected s <> Some (Customer.phone c) ->
  AppReloading.loading_customers s = 0%nat ->
  Backend.data r = None ->
  let s1 := (AppReloading.step s (AppReloading.Click i)).1 in
  let s2 := (AppReloading.step s1 (AppReloading.CustomersLoaded r)).1 in
  In (AppReloading.Query "customers" None "last_seen" false None)
     (AppReloading.step s (AppReloading.Click i)).2
  /\ forall es,
       AppReloading.conversations (AppReloading.run s2 es) = []
       /\ AppReloading.selected (AppReloading.run s2 es)
          = Some (Customer.phone c).
Proof.
  intros Hi Hsel Hl Hd s1 s2. subst s1 s2.
  assert (Hclick : exists s1 effects,
             AppReloading.step s (AppReloading.Click i) = (s1, effects)
             /\ In (AppReloading.Query "customers" None "last_seen" false None)
                   effects
             /\ AppReloading.selected s1 = Some (Customer.phone c)
             /\ AppReloading.loading_customers s1 = 1%nat).
  { simpl. rewrite Hi. unfold AppReloading.setSelected.
    rewrite decide_False by exact Hsel.
    unfold AppReloading.subscribe_cleanup, AppReloading.subscribe_effect,
      AppReloading.messages_effect. simpl.
    destruct (AppReloading.subscription s); simpl;
      destruct (JS.truthy_string (Customer.phone c)); simpl;
      eexists _, _; (split; [reflexivity|]); simpl; rewrite Hl; eauto 10. }
  destruct Hclick as (s1 & effects & -> & Hin & Hsel1 & Hn).
  cbn [fst snd]. split; [exact Hin|]. intros es.
  destruct (reloading_stuck_run es
              (AppReloading.step s1 (AppReloading.CustomersLoaded r)).1)
    as [Hc Hs].
  - simpl. by rewrite Hn, Hd.
  - simpl. by rewrite Hn.
  - split; [exact Hc|]. rewrite Hs. simpl. by rewrite Hn.
Qed.

Lemma X12_failed_reload_empties_list_witness :
  let s := AppReloading.run AppReloading.mount.1
             [AppReloading.CustomersLoaded
                {| Backend.data := Some [alice; bob]; Backend.error := None |}] in
  AppReloading.conversations
    (AppReloading.run s
       [AppReloading.Click 0; AppReloading.CustomersLoaded (failed "timeout");
        AppReloading.Click 1; AppReloading.MessageInserted (hi 1)])
  = [].
Proof.
  intros s.
  destruct (X12_failed_reload_empties_list s 0 alice (failed "timeout")
              eq_refl ltac:(discriminate) eq_refl eq_refl) as [_ Hstuck].
  exact (proj1 (Hstuck [AppReloading.Click 1;
                        AppReloading.MessageInserted (hi 1)])).
Defined.

Lemma X11_unfiltered_callback_is_current_witness :
  let s := AppReloading.run AppReloading.mount.1
             [AppReloading.CustomersLoaded
                {| Backend.data := Some [alice; bob]; Backend.error := None |};
              AppReloading.Click 0] in
  AppReloading.messages
    (AppReloading.step s (AppReloading.MessageInserted (stray 1))).1 = []
  /\ AppReloading.messages
       (AppReloading.step s (AppReloading.MessageInserted (hi 1))).1 = [hi 1].
Proof.
  intros s.
  assert (Hs : AppReloading.reachable s).
  { apply reloading_reachable_run, AppReloading.reachable_mount. }
  split.
  - destruct (X11_unfiltered_callback_is_current s (stray 1) Hs) as [H _].
    exact H.
  - destruct (X11_unfiltered_callback_is_current s (hi 1) Hs) as [H _].
    exact H.
Defined.

(** ** The later [App] *)

Lemma ascending_thread_snoc stored p news new :
  AppAscending.thread stored p (news ++ [new])
  = AppAscending.thread stored p news ++ [new].
Proof. unfold AppAscending.thread. by rewrite foldl_app. Qed.

(** X13: in the later [App] the panel shows the list as it is: a fetched
    thread stands oldest first, and every INSERT event delivered after it
    is shown below everything else. *)
Theorem X13_ascending_thread_consistent
    (stored : list Message.t) (p : string) (news : list Message.t)
    (new : Message.t) :
  StronglySorted Z.le
    (AppAscending.rendered_times (AppAscending.thread stored p []))
  /\ AppAscending.rendered (AppAscending.thread stored p (news ++ [new]))
     = AppAscending.rendered (AppAscending.thread stored p news)
       ++ [Message.body new].
Proof.
  split.
  - unfold AppAscending.rendered_times, AppAscending.thread. simpl.
    change (App.top_to_bottom AppAscending.flexDirection ?l) with l.
    apply (StronglySorted_fmap Message.created_at (in_order true) Z.le).
    + intros a b Hab. exact Hab.
    + apply StronglySorted_take, order_created_at_sorted.
  - rewrite ascending_thread_snoc. unfold AppAscending.rendered.
    change (App.top_to_bottom AppAscending.flexDirection ?l) with l.
    by rewrite map_app.
Qed.

(** X14: the ascending query with its limit of 100 brings the oldest rows
    of the conversation into view: every stored row of the conversation
    that is left out is no older than any row fetched, and rows are left
    out as soon as the conversation has more than 100. *)
Theorem X14_ascending_fetch_keeps_oldest
    (stored : list Message.t) (p : string) :
  let msgs := AppAscending.thread stored p [] in
  List.length msgs = Nat.min 100 (List.length (Backend.eq_phone p stored))
  /\ exists rest,
       msgs ++ rest ≡ₚ Backend.eq_phone p stored
       /\ Forall (fun k =>
                    Forall (fun m => Message.created_at k <= Message.created_at m)
                           rest) msgs
       /\ List.length rest
          = (List.length (Backend.eq_phone p stored) - 100)%nat.
Proof.
  intros msgs. subst msgs. unfold AppAscending.thread. simpl.
  destruct (select_messages_split stored p true 100 _ eq_refl)
    as (Hlen & rest & Hperm & Hord).
  split; [exact Hlen|]. exists rest. split; [exact Hperm|]. split; [exact Hord|].
  apply Permutation_length in Hperm. rewrite length_app, Hlen in Hperm. lia.
Qed.

(** ** What a change of conversation asks for *)

(** X15: a click that moves the selection from one conversation to
    another first removes the message channel of the old one, then
    issues one query for the 100 newest messages of the new one and one
    subscription filtered to it, and nothing else; the query joins the
    pending ones and the list in view is not touched. *)
Theorem X15_change_of_conversation
    (s : App.State) (i : nat) (c : Customer.t) (q : string) :
  App.reachable s ->
  App.conversations s !! i = Some c ->
  App.selectedPhone s = Some q ->
  JS.truthy_string q = true ->
  JS.truthy_string (Customer.phone c) = true ->
  q <> Customer.phone c ->
  let p := Customer.phone c in
  App.step s (App.Click i)
  = (App.set_messages_channel (Some (App.messages_subscription p))
       (App.set_loading_messages (App.loading_messages s ++ [p])
          (App.set_messages_channel None
             (App.with_selectedPhone (Some p) s))),
     [App.RemoveChannel (App.messages_subscription q);
      App.Query "messages" (Some p) "created_at" false (Some 100%nat);
      App.Subscribe (App.messages_subscription p)]).
Proof.
  intros Hs Hi Hsel Hq Hp Hne p. subst p.
  destruct (reachable_channels_scoped s Hs) as [_ Hm].
  rewrite Hsel, Hq in Hm.
  simpl. rewrite Hi. unfold App.setSelectedPhone.
  rewrite decide_False by congruence.
  unfold App.messages_cleanup, App.messages_effect. simpl.
  rewrite Hm. simpl. rewrite Hp. reflexivity.
Qed.

Lemma X15_change_of_conversation_witness :
  (App.step (thread_open [alice; bob] [hi 1; there 2]) (App.Click 1)).2
  = [App.RemoveChannel (App.messages_subscription "+15551234");
     App.Query "messages" (Some "+15559999") "created_at" false (Some 100%nat);
     App.Subscribe (App.messages_subscription "+15559999")].
Proof.
  rewrite (X15_change_of_conversation
             (thread_open [alice; bob] [hi 1; there 2]) 1 bob "+15551234"
             (thread_open_reachable _ _) eq_refl eq_refl eq_refl eq_refl
             ltac:(discriminate)).
  reflexivity.
Defined.
